(** * nikolaj: two-level clustering and alpha-shape boundary extraction

    A shallow embedding of [components/alphaShape.ts] and
    [components/clustering.ts] (with the part of
    [components/combinedVisualization.tsx] that runs the primary clustering for
    the markers), and the properties of the pipeline proved over it.

    Numbers that carry coordinates are IEEE-754 binary64 values, as in the
    JavaScript engine: Rocq's primitive [float] with its correctly rounded
    [+ - * / sqrt].  Counts and array indices are integers ([nat] for lengths
    and indices, [Z] for the requested cluster count and for cluster ids).

    The two libraries the code calls, [d3-delaunay] and [ml-kmeans], and the
    engine's [Math.pow], are not part of the repository: they are parameters
    of the model. *)

From Stdlib Require Import String.
From Stdlib Require Import List ZArith Bool Lia PeanoNat.
From Stdlib Require Import DecimalString.
From Stdlib Require Import Floats.PrimFloat.
Import ListNotations.

Set Implicit Arguments.

(** ** JavaScript values shared by the components *)

Module Js.

(** The result of running a piece of code that may throw. *)
Inductive exn : Type :=
| TypeError
| LibraryError.

Inductive outcome (A : Type) : Type :=
| Returned (a : A)
| Thrown (e : exn).

Arguments Returned {A} a.
Arguments Thrown {A} e.

Definition bind {A B : Type} (c : outcome A) (k : A -> outcome B) : outcome B :=
  match c with
  | Returned a => k a
  | Thrown e => Thrown e
  end.

Definition returns {A : Type} (c : outcome A) : bool :=
  match c with
  | Returned _ => true
  | Thrown _ => false
  end.

(** A [[number, number]] tuple. *)
Definition point : Type := (float * float)%type.

(** [isNaN(x)] on a number. *)
Definition isNaN (x : float) : bool := is_nan x.

(** [x ** 2]. *)
Definition square (x : float) : float := (x * x)%float.

(** Template literal [`${i}`] of a non-negative integer. *)
Definition decimal (i : nat) : string := NilEmpty.string_of_uint (Nat.to_uint i).

(** An insertion-ordered [Map<string, V>]: [set] on a new key appends, on a
    known key replaces the value in place; [delete] removes the entry;
    [values] lists the values in insertion order. *)
Module StrMap.

Definition t (V : Type) : Type := list (string * V).

Definition empty {V : Type} : t V := [].

Fixpoint has {V : Type} (k : string) (m : t V) : bool :=
  match m with
  | [] => false
  | (k', _) :: rest => if String.eqb k k' then true else has k rest
  end.

Fixpoint replace {V : Type} (k : string) (v : V) (m : t V) : t V :=
  match m with
  | [] => []
  | (k', v') :: rest =>
      if String.eqb k k' then (k', v) :: rest else (k', v') :: replace k v rest
  end.

Definition set {V : Type} (k : string) (v : V) (m : t V) : t V :=
  if has k m then replace k v m else m ++ [(k, v)].

Fixpoint delete {V : Type} (k : string) (m : t V) : t V :=
  match m with
  | [] => []
  | (k', v') :: rest =>
      if String.eqb k k' then rest else (k', v') :: delete k rest
  end.

Definition values {V : Type} (m : t V) : list V := map snd m.

(** Keys are unique in a map built by [set] and [delete]. *)
Definition wellFormed {V : Type} (m : t V) : Prop := NoDup (map fst m).

End StrMap.

End Js.

Import Js.

(** ** components/alphaShape.ts *)

Module AlphaShape.

(** An edge [[i, j]] of point indices. *)
Definition edge : Type := (nat * nat)%type.

(** The keys [`${i}-${j}`] of the edge map. *)
Definition edgeKey (i j : nat) : string := (decimal i ++ "-" ++ decimal j)%string.

(** The inner function [addEdge(i, j)], on the map it closes over. *)
Definition addEdge (onlyOuter : bool) (edges : StrMap.t edge) (i j : nat) : StrMap.t edge :=
  let key1 := edgeKey i j in
  let key2 := edgeKey j i in
  if StrMap.has key1 edges || StrMap.has key2 edges then
    if onlyOuter && StrMap.has key2 edges then StrMap.delete key2 edges else edges
  else StrMap.set key1 (i, j) edges.

(** Euclidean length of a side. *)
Definition side (p q : point) : float :=
  sqrt (square (fst p - fst q) + square (snd p - snd q))%float.

(** Heron's area of the triangle with side lengths [a], [b], [c]. *)
Definition heronArea (a b c : float) : float :=
  let s := ((a + b + c) / 2)%float in
  sqrt (s * (s - a) * (s - b) * (s - c))%float.

Definition circumRadius (a b c area : float) : float :=
  ((a * b * c) / (4 * area))%float.

(** [circum_r < alpha] for the triangle with corners [pa], [pb], [pc]. *)
Definition area (pa pb pc : point) : float :=
  heronArea (side pa pb) (side pb pc) (side pc pa).

Definition radiusTest (alpha : float) (pa pb pc : point) : bool :=
  (circumRadius (side pa pb) (side pb pc) (side pc pa) (area pa pb pc) <? alpha)%float.

(** The test of one triangle: not skipped for a zero area, and
    [circum_r < alpha]. *)
Definition passes (alpha : float) (pa pb pc : point) : bool :=
  if (area pa pb pc =? 0)%float then false
  else radiusTest alpha pa pb pc.

(** The loop over [triangles], three indices at a time.  Reading a
    coordinate of a point that is [undefined] (an index outside [points], or
    a triple cut short) throws. *)
Fixpoint triangleLoop (points : list point) (alpha : float) (onlyOuter : bool)
    (triangles : list nat) (edges : StrMap.t edge) : outcome (StrMap.t edge) :=
  match triangles with
  | [] => Returned edges
  | ia :: ib :: ic :: rest =>
      match nth_error points ia, nth_error points ib, nth_error points ic with
      | Some pa, Some pb, Some pc =>
          if passes alpha pa pb pc then
            let e1 := addEdge onlyOuter edges ia ib in
            let e2 := addEdge onlyOuter e1 ib ic in
            let e3 := addEdge onlyOuter e2 ic ia in
            triangleLoop points alpha onlyOuter rest e3
          else triangleLoop points alpha onlyOuter rest edges
      | _, _, _ => Thrown TypeError
      end
  | _ => Thrown TypeError
  end.

(** The vertex triples the loop visits. *)
Fixpoint triples (triangles : list nat) : list (nat * nat * nat) :=
  match triangles with
  | ia :: ib :: ic :: rest => (ia, ib, ic) :: triples rest
  | _ => []
  end.

(** A triangle whose corners exist fails [circum_r < alpha]. *)
Definition radiusFails (points : list point) (alpha : float) (t : nat * nat * nat) : bool :=
  let '(ia, ib, ic) := t in
  match nth_error points ia, nth_error points ib, nth_error points ic with
  | Some pa, Some pb, Some pc => negb (radiusTest alpha pa pb pc)
  | _, _, _ => true
  end.

(** No triangle of the array passes the radius test. *)
Definition noTrianglePasses (points : list point) (alpha : float) (triangles : list nat) : bool :=
  forallb (radiusFails points alpha) (triples triangles).

(** A triangle whose corners exist and which the loop keeps. *)
Definition survives (points : list point) (alpha : float) (t : nat * nat * nat) : bool :=
  let '(ia, ib, ic) := t in
  match nth_error points ia, nth_error points ib, nth_error points ic with
  | Some pa, Some pb, Some pc => passes alpha pa pb pc
  | _, _, _ => false
  end.

Section WithDelaunay.

(** [Delaunay.from(points).triangles] of d3-delaunay: the flat array of
    vertex indices, or the exception the library raised. *)
Variable delaunayTriangles : list point -> outcome (list nat).

(** The body of the [try] block. *)
Definition tryBlock (points : list point) (alpha : float) (onlyOuter : bool)
    : outcome (list edge) :=
  bind (delaunayTriangles points) (fun triangles =>
  bind (triangleLoop points alpha onlyOuter triangles StrMap.empty) (fun edges =>
  Returned (StrMap.values edges))).

(** The whole function: the guard, then the [try] with its [catch]. *)
Definition alphaShape (points : list point) (alpha : float) (onlyOuter : bool)
    : outcome (list edge) :=
  if length points <? 4 then Returned []
  else
    match tryBlock points alpha onlyOuter with
    | Returned resultEdges => Returned resultEdges
    | Thrown _ => Returned []
    end.

End WithDelaunay.

(** *** The unit square of the edge-cancellation scenario *)

Definition unitSquare : list point :=
  [(0, 0); (1, 0); (1, 1); (0, 1)]%float.

Definition rotations (t : list nat) : list (list nat) :=
  match t with
  | [a; b; c] => [[a; b; c]; [b; c; a]; [c; a; b]]
  | _ => []
  end.

(** Two triangles in all rotations of their vertex triples and in either
    order in the flat array. *)
Definition arrangements (t1 t2 : list nat) : list (list nat) :=
  flat_map (fun r1 =>
    flat_map (fun r2 => [r1 ++ r2; r2 ++ r1]) (rotations t2)) (rotations t1).

(** Every triangulation of the unit square a Delaunay routine can return:
    the square split along either diagonal, both triangles turning the same
    way (counterclockwise or clockwise). *)
Definition squareTriangulations : list (list nat) :=
  arrangements [0; 1; 2] [0; 2; 3] ++ arrangements [0; 1; 3] [1; 2; 3]
  ++ arrangements [2; 1; 0] [3; 2; 0] ++ arrangements [3; 1; 0] [3; 2; 1].

Definition sameEdge (e f : edge) : bool :=
  ((fst e =? fst f) && (snd e =? snd f)) || ((fst e =? snd f) && (snd e =? fst f)).

Definition countEdge (e : edge) (es : list edge) : nat :=
  length (filter (sameEdge e) es).

Definition perimeter : list edge := [(0, 1); (1, 2); (2, 3); (3, 0)].
Definition diagonals : list edge := [(0, 2); (1, 3)].

(** Exactly the four sides, each once, and no diagonal. *)
Definition isPerimeter (es : list edge) : bool :=
  (length es =? 4)
  && forallb (fun e => countEdge e es =? 1) perimeter
  && forallb (fun e => countEdge e es =? 0) diagonals.

End AlphaShape.

Import AlphaShape.

(** ** components/clustering.ts *)

Module Clustering.

(** Modelled from the spec: [DataRow] is declared in [../types], which is not
    among the sources.  Section 6 gives each record a [latitude: number] and
    a [longitude: number], either of which may be absent; [None] is the
    absent ([undefined]) field.  The other fields of a record play no part in
    the pipeline. *)
Record DataRow : Type := {
  Latitude : option float;
  Longitude : option float
}.

(** [Number(v)] of a field: [Number(undefined)] is [NaN]. *)
Definition Number (v : option float) : float :=
  match v with
  | Some x => x
  | None => nan
  end.

(** [v !== undefined]. *)
Definition defined (v : option float) : bool :=
  match v with
  | Some _ => true
  | None => false
  end.

(** The predicate of the first [filter] of [analyze]. *)
Definition validRow (row : DataRow) : bool :=
  defined (Latitude row) && defined (Longitude row)
  && negb (isNaN (Number (Latitude row)))
  && negb (isNaN (Number (Longitude row))).

(** [[Latitude, Longitude]] of a record. *)
Definition latLon (row : DataRow) : point :=
  (Number (Latitude row), Number (Longitude row)).

(** [[Longitude, Latitude]] of a record. *)
Definition lonLat (row : DataRow) : point :=
  (Number (Longitude row), Number (Latitude row)).

Definition features (data : list DataRow) : list point :=
  map latLon (filter validRow data).

(** A centroid as ml-kmeans may hand it over: an object with a [centroid]
    property, or the bare coordinate pair. *)
Inductive centroidShape : Type :=
| Wrapped (centroid : point)
| Bare (c : point).

(** The fields of [KMeansResult] the code reads; either may be missing on
    the object the library yields, which the code tests for. *)
Record KMeansResult : Type := {
  clusters : option (list Z);
  centroids : option (list centroidShape)
}.

Record Output : Type := {
  longs : list (list float);
  lats : list (list float)
}.

Definition emptyOutput : Output := {| longs := []; lats := [] |}.

(** [Set.prototype.add]: a set keeps its elements in insertion order. *)
Definition setAdd (s : list Z) (x : Z) : list Z :=
  if existsb (Z.eqb x) s then s else s ++ [x].

(** [Array.from(new Set(primaryClusters))]. *)
Definition uniqueClusters (primaryClusters : list Z) : list Z :=
  fold_left setAdd primaryClusters [].

(** [l.filter((x, idx) => f(x, idx))], counting indices from [idx]. *)
Fixpoint filterFrom {A : Type} (f : A -> nat -> bool) (idx : nat) (l : list A) : list A :=
  match l with
  | [] => []
  | x :: rest =>
      if f x idx then x :: filterFrom f (S idx) rest else filterFrom f (S idx) rest
  end.

(** [idx < primaryClusters.length && primaryClusters[idx] === clusterId]. *)
Definition inCluster (primaryClusters : list Z) (clusterId : Z) (idx : nat) : bool :=
  (idx <? length primaryClusters)
  && match nth_error primaryClusters idx with
     | Some c => Z.eqb c clusterId
     | None => false
     end.

Definition clusterRows (data : list DataRow) (primaryClusters : list Z) (clusterId : Z)
    : list DataRow :=
  filterFrom (fun _ idx => inCluster primaryClusters clusterId idx) 0 data.

Definition clusterPoints (data : list DataRow) (primaryClusters : list Z) (clusterId : Z)
    : list point :=
  map lonLat (clusterRows data primaryClusters clusterId).

Definition unwrap (c : centroidShape) : point :=
  match c with
  | Wrapped centroid => centroid
  | Bare p => p
  end.

(** The inner loop of the last stage: one edge [[j, k]] of one cluster. *)
Definition pushEdge (centers : list point) (out : Output) (e : edge) : Output :=
  let (j, k) := e in
  if (j <? length centers) && (k <? length centers) then
    let cj := nth j centers (nan, nan) in
    let ck := nth k centers (nan, nan) in
    {| longs := longs out ++ [[fst cj; fst ck]];
       lats := lats out ++ [[snd cj; snd ck]] |}
  else out.

(** The outer loop of the last stage, at index [i] of [Hcenters]; iterating
    over a [Pedges[i]] that is [undefined] throws. *)
Fixpoint assembleFrom (i : nat) (rest : list (list point)) (Pedges : list (list edge))
    (out : Output) : outcome Output :=
  match rest with
  | [] => Returned out
  | centers :: rest' =>
      match nth_error Pedges i with
      | Some edges =>
          assembleFrom (S i) rest' Pedges (fold_left (pushEdge centers) edges out)
      | None => Thrown TypeError
      end
  end.

Definition assemble (Hcenters : list (list point)) (Pedges : list (list edge))
    : outcome Output :=
  assembleFrom 0 Hcenters Pedges emptyOutput.

Section WithLibraries.

(** The last value yielded by [kmeansGenerator(points, k, {})] of ml-kmeans
    ([None] when it yields nothing), or the exception it raised. *)
Variable kmeansGenerator : list point -> Z -> outcome (option KMeansResult).

Variable delaunayTriangles : list point -> outcome (list nat).

(** [Math.floor(Math.pow(m, 0.25))] of the engine, at an array length. *)
Variable floorPowQuarter : nat -> Z.

Definition actualNClusters (data : list DataRow) (nCluster : Z) : Z :=
  Z.min nCluster (Z.of_nat (length (features data))).

(** The arguments of the primary clustering run, when it is reached. *)
Definition primaryArgs (data : list DataRow) (nCluster : Z) : option (list point * Z) :=
  if (actualNClusters data nCluster <? 1)%Z || (length (features data) <? 1)
  then None
  else Some (features data, actualNClusters data nCluster).

Definition subClusterCount (m : nat) : Z :=
  let subClusters := floorPowQuarter m in
  if (subClusters <? 1)%Z then 1%Z else subClusters.

(** The arguments of the secondary clustering run of one primary cluster,
    when it is reached. *)
Definition secondaryArgs (data : list DataRow) (primaryClusters : list Z) (clusterId : Z)
    : option (list point * Z) :=
  let pts := clusterPoints data primaryClusters clusterId in
  if length pts <? 4 then None
  else Some (pts, subClusterCount (length pts)).

(** One turn of the loop over [uniqueClusters]: what it pushes on
    [Hcenters] and [Pedges], [None] for a [continue] or an empty edge
    list. *)
Definition processCluster (data : list DataRow) (primaryClusters : list Z) (clusterId : Z)
    : outcome (option (list point * list edge)) :=
  match secondaryArgs data primaryClusters clusterId with
  | None => Returned None
  | Some (pts, subClusters) =>
      bind (kmeansGenerator pts subClusters) (fun subResult =>
        match subResult with
        | None => Returned None
        | Some r =>
            match centroids r with
            | None => Returned None
            | Some cs =>
                let centers := map unwrap cs in
                if length centers <? 4 then Returned None
                else
                  match alphaShape delaunayTriangles centers 1 true with
                  | Returned edges =>
                      if 0 <? length edges then Returned (Some (centers, edges))
                      else Returned None
                  | Thrown _ => Returned None
                  end
            end
        end)
  end.

Fixpoint clusterLoop (data : list DataRow) (primaryClusters : list Z) (ids : list Z)
    (Hcenters : list (list point)) (Pedges : list (list edge))
    : outcome (list (list point) * list (list edge)) :=
  match ids with
  | [] => Returned (Hcenters, Pedges)
  | clusterId :: rest =>
      bind (processCluster data primaryClusters clusterId) (fun pushed =>
        match pushed with
        | None => clusterLoop data primaryClusters rest Hcenters Pedges
        | Some (centers, edges) =>
            clusterLoop data primaryClusters rest
              (Hcenters ++ [centers]) (Pedges ++ [edges])
        end)
  end.

(** Everything after the primary clustering produced its assignment. *)
Definition boundaries (data : list DataRow) (primaryClusters : list Z) : outcome Output :=
  bind (clusterLoop data primaryClusters (uniqueClusters primaryClusters) [] [])
    (fun hp => assemble (fst hp) (snd hp)).

(** The primary clustering run and the checks on its result; [None] on each
    path that makes [analyze] return the empty output early. *)
Definition primaryClustering (data : list DataRow) (nCluster : Z) : outcome (option (list Z)) :=
  match primaryArgs data nCluster with
  | None => Returned None
  | Some (pts, k) =>
      bind (kmeansGenerator pts k) (fun primaryResult =>
        match primaryResult with
        | None => Returned None
        | Some r => Returned (clusters r)
        end)
  end.

Definition analyze (data : list DataRow) (nCluster : Z) : outcome Output :=
  bind (primaryClustering data nCluster) (fun assignment =>
    match assignment with
    | None => Returned emptyOutput
    | Some primaryClusters => boundaries data primaryClusters
    end).

(** *** components/combinedVisualization.tsx, [genClustersHTML]

    The traces the page is rendered from; the HTML text is their JSON
    serialisation, with a colour picked by cluster id or by position. *)

Record PrimaryTrace : Type := {
  clusterOf : Z;
  markerLat : list float;
  markerLon : list float
}.

Record ClustersView : Type := {
  primaryAssignment : option (list Z);
  primaryTraces : list PrimaryTrace;
  secondary : Output
}.

Definition primaryTrace (data : list DataRow) (primaryClusters : list Z) (clusterId : Z)
    : PrimaryTrace :=
  let rows := clusterRows data primaryClusters clusterId in
  {| clusterOf := clusterId;
     markerLat := map (fun row => Number (Latitude row)) rows;
     markerLon := map (fun row => Number (Longitude row)) rows |}.

Definition genClusters (data : list DataRow) (n : Z) : outcome ClustersView :=
  bind (kmeansGenerator (features data) n) (fun primaryResult =>
    let primaryClusters :=
      match primaryResult with
      | Some r => clusters r
      | None => None
      end in
    let traces :=
      match primaryClusters with
      | Some cl => map (primaryTrace data cl) (uniqueClusters cl)
      | None => []
      end in
    bind (analyze data n) (fun sec =>
      Returned {| primaryAssignment := primaryClusters;
                  primaryTraces := traces;
                  secondary := sec |})).

End WithLibraries.

(** *** Notions the properties are stated with *)

(** [r] is the floor of the fourth root of [m]. *)
Definition isFloorRoot4 (m : nat) (r : Z) : Prop :=
  (0 <= r /\ r ^ 4 <= Z.of_nat m < (r + 1) ^ 4)%Z.

(** The records that passed the filter and that the primary assignment, which
    is indexed by the filtered points, puts in cluster [clusterId], in
    longitude-first order. *)
Definition assignedPoints (data : list DataRow) (primaryClusters : list Z) (clusterId : Z)
    : list point :=
  map lonLat
    (filterFrom (fun _ idx => inCluster primaryClusters clusterId idx) 0 (filter validRow data)).

Fixpoint ascending (ids : list Z) : bool :=
  match ids with
  | [] => true
  | x :: rest =>
      match rest with
      | [] => true
      | y :: _ => (x <? y)%Z && ascending rest
      end
  end.

(** Removal of the repeats of a list, each element staying where it first
    appears. *)
Fixpoint firstAppearances (ids : list Z) : list Z :=
  match ids with
  | [] => []
  | x :: rest => x :: filter (fun y => negb (Z.eqb y x)) (firstAppearances rest)
  end.

(** The segments of one centroid set. *)
Definition segmentsOf (centers : list point) (edges : list edge) : Output :=
  fold_left (pushEdge centers) edges emptyOutput.

Definition appendOutput (a b : Output) : Output :=
  {| longs := longs a ++ longs b; lats := lats a ++ lats b |}.

(** The pair is the coordinate pair of one of the centroids. *)
Definition isPointOf (centers : list point) (pair : list float) : bool :=
  match pair with
  | [x; y] => existsb (fun c => (fst c =? x)%float && (snd c =? y)%float) centers
  | _ => false
  end.

(** A segment of a centroid set as the two output sequences hold it: an edge
    [[j, k]] of the set gives the two longitudes to one sequence and the two
    latitudes to the other. *)
Definition isSegmentOf (centers : list point) (edges : list edge)
    (lonPair latPair : list float) : Prop :=
  exists j k pj pk,
    In (j, k) edges
    /\ nth_error centers j = Some pj /\ nth_error centers k = Some pk
    /\ lonPair = [fst pj; fst pk] /\ latPair = [snd pj; snd pk].

(** Outputs put one after the other. *)
Definition mergeOutputs (outs : list Output) : Output :=
  fold_right appendOutput emptyOutput outs.

Section Contributions.

Variable kmeansGenerator : list point -> Z -> outcome (option KMeansResult).
Variable delaunayTriangles : list point -> outcome (list nat).
Variable floorPowQuarter : nat -> Z.

(** What one primary cluster contributes to the output. *)
Definition clusterOutput (data : list DataRow) (primaryClusters : list Z) (clusterId : Z)
    : Output :=
  match processCluster kmeansGenerator delaunayTriangles floorPowQuarter
          data primaryClusters clusterId with
  | Returned (Some (centers, edges)) => segmentsOf centers edges
  | _ => emptyOutput
  end.

(** A centroid set with its edges that the turn of one of the clusters [ids]
    pushed on [Hcenters] and [Pedges]. *)
Definition pushedBy (data : list DataRow) (primaryClusters : list Z) (ids : list Z)
    (ce : list point * list edge) : Prop :=
  exists c,
    In c ids
    /\ processCluster kmeansGenerator delaunayTriangles floorPowQuarter
         data primaryClusters c = Returned (Some ce).

End Contributions.

End Clustering.

Import Clustering.

(** ** Concrete inputs and library behaviours *)

Module Scenario.

Definition row (lat lon : float) : DataRow :=
  {| Latitude := Some lat; Longitude := Some lon |}.

Definition missingRow : DataRow := {| Latitude := None; Longitude := None |}.

Definition rowAtInfinity : DataRow := row infinity 0.

(** One record without coordinates in front of four good ones. *)
Definition misaligned : list DataRow :=
  [missingRow; row 1 2; row 3 4; row 5 6; row 7 8].

(** The exact integer fourth root. *)
Definition exactFloorPowQuarter (m : nat) : Z := Z.sqrt (Z.sqrt (Z.of_nat m)).

Definition dist2 (p q : point) : float :=
  (square (fst p - fst q) + square (snd p - snd q))%float.

Fixpoint nearestFrom (p : point) (cs : list point) (i best : nat) (bestD : float) : nat :=
  match cs with
  | [] => best
  | c :: rest =>
      if (dist2 p c <? bestD)%float then nearestFrom p rest (S i) i (dist2 p c)
      else nearestFrom p rest (S i) best bestD
  end.

Definition nearest (cs : list point) (p : point) : Z :=
  Z.of_nat (nearestFrom p cs 0 0 infinity).

(** A k-means run that stops after its first assignment step: the centroids
    are the points at the first [k] positions of [init], and every point goes
    to its nearest centroid, the lowest id winning a tie. *)
Definition kmeansOnce (init : list nat) (pts : list point) (k : Z)
    : outcome (option KMeansResult) :=
  let cs := map (fun i => nth i pts (nan, nan)) (firstn (Z.to_nat k) init) in
  Returned (Some {| clusters := Some (map (nearest cs) pts);
                    centroids := Some (map Bare cs) |}).

(** A triangulation routine that answers with the split of a quadrilateral
    along the diagonal 0-2. *)
Definition quadDelaunay (pts : list point) : outcome (list nat) :=
  Returned [0; 1; 2; 0; 2; 3].

(** 256 records in one district: the corners of a square of side one, then
    its centre 252 times. *)
Definition district : list DataRow :=
  [row 5 1; row 5 2; row 6 2; row 6 1] ++ repeat (row 5.5 1.5) 252.

(** What [analyze] returns for the district: the four sides of the square. *)
Definition districtOutput : Output :=
  {| longs := [[1; 2]; [2; 2]; [2; 1]; [1; 1]]%float;
     lats := [[5; 5]; [5; 6]; [6; 6]; [6; 5]]%float |}.

(** Two districts of 256 records each, a western and an eastern square with
    their centres; the first record lies in the west, the second in the
    east. *)
Definition twoDistricts : list DataRow :=
  [row 5 2; row 5 12; row 5 1; row 6 2; row 6 1; row 5 11; row 6 12; row 6 11]
  ++ repeat (row 5.5 1.5) 252 ++ repeat (row 5.5 11.5) 252.

(** The assignment when the second record is taken as centroid 0 and the first
    as centroid 1: the west is cluster 1, the east cluster 0. *)
Definition eastIsZero : list Z :=
  [1; 0; 1; 1; 1; 0; 0; 0]%Z ++ repeat 1%Z 252 ++ repeat 0%Z 252.

Definition westOutput : Output := districtOutput.

Definition eastOutput : Output :=
  {| longs := [[11; 12]; [12; 12]; [12; 11]; [11; 11]]%float;
     lats := [[5; 5]; [5; 6]; [6; 6]; [6; 5]]%float |}.

Definition samePairs (a b : list (list float)) : bool :=
  (length a =? length b)
  && forallb (fun xy =>
       (length (fst xy) =? length (snd xy))
       && forallb (fun uv => (fst uv =? snd uv)%float) (combine (fst xy) (snd xy)))
     (combine a b).

(** The same numbers at the same positions. *)
Definition sameOutput (a b : Output) : bool :=
  samePairs (longs a) (longs b) && samePairs (lats a) (lats b).

(** Four centroids, longitude first. *)
Definition fourCenters : list point := [(1, 2); (3, 4); (5, 6); (7, 8)]%float.

End Scenario.

From Stdlib Require DecimalNat.
From Stdlib Require Floats.FloatAxioms.
From Stdlib Require Import Ascii.
From Stdlib Require Import Permutation.

(** ** Notions for the further properties of components/alphaShape.ts *)

Module AlphaShapeNotions.

(** A string without the separator of the keys. *)
Fixpoint noDash (s : string) : Prop :=
  match s with
  | EmptyString => True
  | String c rest => c <> "-"%char /\ noDash rest
  end.

(** The three registrations [addEdge(ia, ib)], [addEdge(ib, ic)],
    [addEdge(ic, ia)] of one triangle, in the order of the calls. *)
Definition directedSides (t : nat * nat * nat) : list edge :=
  let '(ia, ib, ic) := t in [(ia, ib); (ib, ic); (ic, ia)].

(** The registrations of a whole run of the loop, in order: the sides of the
    triangles that pass the test. *)
Definition survivingSides (points : list point) (alpha : float) (triangles : list nat)
    : list edge :=
  flat_map directedSides (filter (survives points alpha) (triples triangles)).

Definition reverseEdge (e : edge) : edge := (snd e, fst e).

Definition edgeEqb (e f : edge) : bool :=
  (fst e =? fst f) && (snd e =? snd f).

Definition memEdge (e : edge) (es : list edge) : bool := existsb (edgeEqb e) es.

(** A flat array of whole triples of indices into [points]. *)
Definition wellShaped (points : list point) (triangles : list nat) : bool :=
  (length triangles mod 3 =? 0) && forallb (fun i => i <? length points) triangles.

(** The registrations whose reverse is registered nowhere. *)
Definition boundarySides (sides : list edge) : list edge :=
  filter (fun e => negb (memEdge (reverseEdge e) sides)) sides.

(** One call of [addEdge] seen on the list of the values of the map. *)
Definition addEdgeValues (onlyOuter : bool) (es : list edge) (e : edge) : list edge :=
  if memEdge e es || memEdge (reverseEdge e) es then
    if onlyOuter && memEdge (reverseEdge e) es
    then filter (fun x => negb (edgeEqb x (reverseEdge e))) es
    else es
  else es ++ [e].

(** No registration occurs twice in the same direction. *)
Fixpoint noRepeat (es : list edge) : bool :=
  match es with
  | [] => true
  | e :: rest => negb (memEdge e rest) && noRepeat rest
  end.

(** No registration joins a point to itself. *)
Definition noLoop (es : list edge) : bool :=
  forallb (fun e => negb (fst e =? snd e)) es.

(** No edge twice, and no edge in both directions. *)
Definition oneWay (es : list edge) : Prop :=
  NoDup es /\ forall e, In e es -> fst e <> snd e -> ~ In (reverseEdge e) es.

(** Every entry of the edge map sits under the key of its own value. *)
Definition keyed (m : StrMap.t edge) : Prop :=
  Forall (fun kv => fst kv = edgeKey (fst (snd kv)) (snd (snd kv))) m.

End AlphaShapeNotions.

Import AlphaShapeNotions.

(** ** Notions for the further properties of components/clustering.ts *)

Module ClusteringNotions.

(** [[centers[j][0], centers[k][0]]] and [[centers[j][1], centers[k][1]]] of
    an edge [[j, k]]. *)
Definition lonPairOf (centers : list point) (e : edge) : list float :=
  [fst (nth (fst e) centers (nan, nan)); fst (nth (snd e) centers (nan, nan))].

Definition latPairOf (centers : list point) (e : edge) : list float :=
  [snd (nth (fst e) centers (nan, nan)); snd (nth (snd e) centers (nan, nan))].

(** The clustering library hands back at most the [k] centroids it was asked
    for. *)
Definition atMostKCentroids
    (kmeans : list point -> Z -> outcome (option KMeansResult)) : Prop :=
  forall pts k r cs,
    (1 <= k)%Z ->
    kmeans pts k = Returned (Some r) -> centroids r = Some cs ->
    (Z.of_nat (length cs) <= k)%Z.

(** The clustering library never throws. *)
Definition neverThrows
    (kmeans : list point -> Z -> outcome (option KMeansResult)) : Prop :=
  forall pts k, exists r, kmeans pts k = Returned r.

End ClusteringNotions.

Import ClusteringNotions.

(** ** components/utils.ts *)

Module Utils.

(** The callback of both reductions, for a comparison [less cur acc]. *)
Definition pick (less : float -> float -> bool) (acc cur : float) : float :=
  if less cur acc then cur else acc.

(** [arr.reduce((min, cur) => (cur < min ? cur : min), Infinity)]. *)
Definition getMin (arr : list float) : float :=
  fold_left (fun min cur => if (cur <? min)%float then cur else min) arr infinity.

(** [arr.reduce((max, cur) => (cur > max ? cur : max), -Infinity)]; [cur > max]
    is [max < cur]. *)
Definition getMax (arr : list float) : float :=
  fold_left (fun max cur => if (max <? cur)%float then cur else max) arr neg_infinity.

End Utils.

Import Utils.

(** ** components/combinedVisualization.tsx: the coordinates and the centres *)

Module Visualization.

(** [lat] and [lon] of [genHeatMapHTML]: the coordinates of [validData]. *)
Definition heatLat (data : list DataRow) : list float :=
  map (fun row => Number (Latitude row)) (filter validRow data).

Definition heatLon (data : list DataRow) : list float :=
  map (fun row => Number (Longitude row)) (filter validRow data).

(** [xs.length ? (getMin(xs) + getMax(xs)) / 2 : 0]. *)
Definition centre (xs : list float) : float :=
  if length xs =? 0 then 0%float else ((getMin xs + getMax xs) / 2)%float.

(** [centerLat] and [centerLon] of [genHeatMapHTML]. *)
Definition heatCentreLat (data : list DataRow) : float := centre (heatLat data).
Definition heatCentreLon (data : list DataRow) : float := centre (heatLon data).

(** [allLats], [allLons] and the centre of [genClustersHTML], over all the
    records. *)
Definition allLats (data : list DataRow) : list float :=
  map (fun row => Number (Latitude row)) data.

Definition allLons (data : list DataRow) : list float :=
  map (fun row => Number (Longitude row)) data.

Definition clustersCentreLat (data : list DataRow) : float := centre (allLats data).
Definition clustersCentreLon (data : list DataRow) : float := centre (allLons data).

End Visualization.

Import Visualization.

(** ** page.tsx: the time window of [handleSubmit] *)

Module Page.

(** The time value of a [Date]: milliseconds, or [None] for an invalid date
    (whose time value is NaN). *)
Definition date : Type := option Z.

(** [a < b] on two dates: false as soon as one is invalid. *)
Definition dateLt (a b : date) : bool :=
  match a, b with
  | Some x, Some y => (x <? y)%Z
  | _, _ => false
  end.

(** [a >= b] on two dates: false as soon as one is invalid. *)
Definition dateGe (a b : date) : bool :=
  match a, b with
  | Some x, Some y => (y <=? x)%Z
  | _, _ => false
  end.

(** The test of the time filter on the three dates it builds. *)
Definition inTimeWindow (timeOnly startTimeObj endTimeObj : date) : bool :=
  if dateLt startTimeObj endTimeObj
  then dateGe timeOnly startTimeObj && dateLt timeOnly endTimeObj
  else dateGe timeOnly startTimeObj || dateLt timeOnly endTimeObj.

End Page.

Import Page.

(** ** page.tsx: the filter of [fetchData] *)

Module Ingest.

(** Modelled from the spec and from the uses in [page.tsx]: a parsed row with
    the five fields the filter reads, the coordinates being numbers and the
    other three strings, each possibly absent. *)
Record ParsedRow : Type := {
  description : option string;
  latitude : option float;
  longitude : option float;
  time : option string;
  city : option string
}.

(** Truthiness of a number: not absent, not 0, not NaN. *)
Definition truthyNumber (v : option float) : bool :=
  match v with
  | Some x => negb (x =? 0)%float && negb (is_nan x)
  | None => false
  end.

(** Truthiness of a string: not absent, not empty. *)
Definition truthyString (v : option string) : bool :=
  match v with
  | Some EmptyString => false
  | Some _ => true
  | None => false
  end.

(** [row.Description && row.Latitude && row.Longitude && row.Time && row.City]. *)
Definition kept (row : ParsedRow) : bool :=
  truthyString (description row) && truthyNumber (latitude row)
  && truthyNumber (longitude row) && truthyString (time row) && truthyString (city row).

(** The coordinates of a row, as the components read them. *)
Definition toDataRow (row : ParsedRow) : DataRow :=
  {| Latitude := latitude row; Longitude := longitude row |}.

(** The records [fetchData] keeps. *)
Definition processed (rows : list ParsedRow) : list DataRow :=
  map toDataRow (filter kept rows).

End Ingest.

(** ** Notions for two runs of the pipeline *)

Module RunNotions.




End RunNotions.

Import RunNotions.

(** ** Further concrete inputs *)

Module MoreScenario.

Import Scenario.

(** The traces of the misaligned records with two clusters requested. *)
Definition misalignedView : ClustersView :=
  Eval vm_compute in
    match genClusters (kmeansOnce [0; 1]) quadDelaunay exactFloorPowQuarter misaligned 2 with
    | Returned view => view
    | Thrown _ =>
        {| primaryAssignment := None; primaryTraces := []; secondary := emptyOutput |}
    end.





(** A record on the equator. *)
Definition equatorRow : Ingest.ParsedRow :=
  {| Ingest.description := Some "THEFT"%string;
     Ingest.latitude := Some 0%float;
     Ingest.longitude := Some 36.75%float;
     Ingest.time := Some "08:30:00"%string;
     Ingest.city := Some "Nairobi"%string |}.

End MoreScenario.


(** * Properties *)

Unset Implicit Arguments.

(** ** The insertion-ordered map *)

Module StrMapFacts.

Import StrMap.

Lemma has_In {V : Type} (k : string) (m : t V) :
  has k m = true <-> In k (map fst m).
Proof.
  induction m as [|[k' v] m IH]; simpl.
  - split; [discriminate | tauto].
  - destruct (String.eqb k k') eqn:E.
    + apply String.eqb_eq in E. subst. tauto.
    + apply String.eqb_neq in E. rewrite IH. split; [tauto|].
      intros [H|H]; [congruence | exact H].
Qed.

Lemma delete_keys_incl {V : Type} (k k' : string) (m : t V) :
  In k' (map fst (delete k m)) -> In k' (map fst m).
Proof.
  induction m as [|[k0 v] m IH]; simpl; [tauto|].
  destruct (String.eqb k k0); simpl; tauto.
Qed.

Lemma delete_wellFormed {V : Type} (k : string) (m : t V) :
  wellFormed m -> wellFormed (delete k m).
Proof.
  unfold wellFormed. induction m as [|[k0 v] m IH]; simpl; intros H; [exact H|].
  inversion H as [|? ? Hn Hm]; subst.
  destruct (String.eqb k k0); simpl; [exact Hm|].
  constructor; [|auto]. intros Hin. apply Hn. eapply delete_keys_incl; eauto.
Qed.

Lemma has_delete_same {V : Type} (k : string) (m : t V) :
  wellFormed m -> has k (delete k m) = false.
Proof.
  unfold wellFormed. induction m as [|[k0 v] m IH]; simpl; intros H; [reflexivity|].
  inversion H as [|? ? Hn Hm]; subst.
  destruct (String.eqb k k0) eqn:E; simpl.
  - apply String.eqb_eq in E. subst.
    destruct (has k0 m) eqn:Hh; [|reflexivity].
    apply has_In in Hh. contradiction.
  - rewrite E. auto.
Qed.

Lemma has_delete_other {V : Type} (k k' : string) (m : t V) :
  has k' m = false -> has k' (delete k m) = false.
Proof.
  intros H. destruct (has k' (delete k m)) eqn:E; [|reflexivity].
  apply has_In in E. apply delete_keys_incl in E. apply has_In in E. congruence.
Qed.

Lemma replace_keys {V : Type} (k : string) (v : V) (m : t V) :
  map fst (replace k v m) = map fst m.
Proof.
  induction m as [|[k0 v0] m IH]; simpl; [reflexivity|].
  destruct (String.eqb k k0); simpl; congruence.
Qed.

Lemma set_wellFormed {V : Type} (k : string) (v : V) (m : t V) :
  wellFormed m -> wellFormed (set k v m).
Proof.
  unfold wellFormed, set. intros H. destruct (has k m) eqn:E.
  - rewrite replace_keys. exact H.
  - rewrite map_app. simpl. apply NoDup_app_remove_l with (l := []). simpl.
    apply NoDup_Add with (a := k) (l := map fst m).
    + clear. induction (map fst m); simpl; constructor. assumption.
    + split; [exact H|]. intros Hin. apply has_In in Hin. congruence.
Qed.

End StrMapFacts.

(** ** components/alphaShape.ts *)

Module AlphaShapeFacts.

Import StrMap StrMapFacts.

(** Induction over a flat array three entries at a time. *)
Lemma triple_ind (P : list nat -> Prop) :
  P [] ->
  (forall a, P [a]) ->
  (forall a b, P [a; b]) ->
  (forall a b c rest, P rest -> P (a :: b :: c :: rest)) ->
  forall l, P l.
Proof.
  intros H0 H1 H2 H3.
  assert (H : forall l, P l /\ (forall a, P (a :: l)) /\ (forall a b, P (a :: b :: l))).
  { induction l as [|x l [IH0 [IH1 IH2]]].
    - repeat split; auto.
    - repeat split; auto. }
  intros l. apply H.
Qed.

(** A registration whose reverse is present removes the reverse and adds
    nothing. *)
Lemma addEdge_cancels_reverse (edges : StrMap.t edge) (i j : nat) :
  wellFormed edges ->
  has (edgeKey j i) edges = true ->
  has (edgeKey i j) edges = false ->
  has (edgeKey i j) (addEdge true edges i j) = false
  /\ has (edgeKey j i) (addEdge true edges i j) = false.
Proof.
  intros Hwf Hrev Hfwd. unfold addEdge. rewrite Hrev, Hfwd. simpl.
  split.
  - apply has_delete_other. exact Hfwd.
  - apply has_delete_same. exact Hwf.
Qed.

Lemma addEdge_wellFormed (onlyOuter : bool) (edges : StrMap.t edge) (i j : nat) :
  wellFormed edges -> wellFormed (addEdge onlyOuter edges i j).
Proof.
  intros Hwf. unfold addEdge.
  destruct (has (edgeKey i j) edges || has (edgeKey j i) edges).
  - destruct (onlyOuter && has (edgeKey j i) edges); [apply delete_wellFormed|]; exact Hwf.
  - apply set_wellFormed. exact Hwf.
Qed.

(** The loop keeps the keys of the edge map unique. *)
Lemma triangleLoop_wellFormed (points : list point) (alpha : float) (onlyOuter : bool)
    (triangles : list nat) :
  forall edges edges',
    wellFormed edges ->
    triangleLoop points alpha onlyOuter triangles edges = Returned edges' ->
    wellFormed edges'.
Proof.
  induction triangles as [|a|a b|a b c rest IH] using triple_ind;
    intros edges edges' Hwf Hrun; simpl in Hrun; try discriminate.
  - inversion Hrun; subst. exact Hwf.
  - destruct (nth_error points a) as [pa|]; [|discriminate].
    destruct (nth_error points b) as [pb|]; [|discriminate].
    destruct (nth_error points c) as [pc|]; [|discriminate].
    destruct (passes alpha pa pb pc).
    + eapply IH; [|exact Hrun]. repeat apply addEdge_wellFormed. exact Hwf.
    + eapply IH; eassumption.
Qed.

(** A triangle that fails the radius test is not kept, whatever its area. *)
Lemma radiusTest_false_passes (alpha : float) (pa pb pc : point) :
  radiusTest alpha pa pb pc = false -> passes alpha pa pb pc = false.
Proof.
  intros H. unfold passes. rewrite H. destruct (area pa pb pc =? 0)%float; reflexivity.
Qed.

(** When no triangle passes, the loop leaves the map as it found it, or
    throws. *)
Lemma triangleLoop_noTrianglePasses (points : list point) (alpha : float) (onlyOuter : bool)
    (triangles : list nat) :
  noTrianglePasses points alpha triangles = true ->
  forall edges,
    triangleLoop points alpha onlyOuter triangles edges = Returned edges
    \/ exists e, triangleLoop points alpha onlyOuter triangles edges = Thrown e.
Proof.
  induction triangles as [|a|a b|a b c rest IH] using triple_ind; intros Hno edges; simpl.
  - left. reflexivity.
  - right. eexists. reflexivity.
  - right. eexists. reflexivity.
  - unfold noTrianglePasses in Hno. simpl in Hno. apply andb_true_iff in Hno.
    destruct Hno as [Hfail Hrest].
    destruct (nth_error points a) as [pa|]; [|right; eexists; reflexivity].
    destruct (nth_error points b) as [pb|]; [|right; eexists; reflexivity].
    destruct (nth_error points c) as [pc|]; [|right; eexists; reflexivity].
    apply negb_true_iff in Hfail. rewrite (radiusTest_false_passes _ _ _ _ Hfail).
    apply IH. exact Hrest.
Qed.

(** The edge lists of the unit square, over all its triangulations: both
    triangles survive, and the four sides are what is left. *)
Lemma unitSquare_all_triangulations :
  forallb (fun tris =>
    forallb (survives unitSquare 10) (triples tris)
    && match triangleLoop unitSquare 10 true tris StrMap.empty with
       | Returned edges => isPerimeter (values edges)
       | Thrown _ => false
       end) squareTriangulations = true.
Proof. vm_compute. reflexivity. Qed.

(** C1: for the unit square (0,0),(1,0),(1,1),(0,1) with alpha = 10 and
    outer-only mode, whichever triangulation of the square the Delaunay
    routine returns, both triangles pass the radius test and [alphaShape]
    returns exactly the four sides of the square, each once, and neither
    diagonal; and in general a registration [addEdge(i, j)] that finds the
    reverse edge in the map leaves neither direction registered. *)
Theorem alphaShape_square_perimeter
    (delaunay : list point -> outcome (list nat)) (tris : list nat) :
  In tris squareTriangulations ->
  delaunay unitSquare = Returned tris ->
  (exists es, alphaShape delaunay unitSquare 10 true = Returned es /\ isPerimeter es = true)
  /\ forallb (survives unitSquare 10) (triples tris) = true
  /\ (forall (edges : StrMap.t edge) (i j : nat),
        wellFormed edges ->
        has (edgeKey j i) edges = true ->
        has (edgeKey i j) edges = false ->
        has (edgeKey i j) (addEdge true edges i j) = false
        /\ has (edgeKey j i) (addEdge true edges i j) = false).
Proof.
  intros Hin Hdel.
  pose proof unitSquare_all_triangulations as Hall.
  rewrite forallb_forall in Hall. specialize (Hall tris Hin).
  apply andb_true_iff in Hall. destruct Hall as [Hsurv Hper].
  split; [|split].
  - unfold alphaShape, tryBlock. simpl length. simpl Nat.ltb. cbv iota.
    rewrite Hdel. simpl bind.
    destruct (triangleLoop unitSquare 10 true tris StrMap.empty) as [edges|e].
    + simpl. eexists. split; [reflexivity | exact Hper].
    + discriminate.
  - exact Hsurv.
  - exact addEdge_cancels_reverse.
Qed.

(** The triangulation [0,1,2 | 0,2,3] of the square. *)
Lemma alphaShape_square_perimeter_witness :
  (exists es, alphaShape (fun _ => Returned [0; 1; 2; 0; 2; 3]) unitSquare 10 true = Returned es
              /\ isPerimeter es = true)
  /\ forallb (survives unitSquare 10) (triples [0; 1; 2; 0; 2; 3]) = true
  /\ (forall (edges : StrMap.t edge) (i j : nat),
        wellFormed edges ->
        has (edgeKey j i) edges = true ->
        has (edgeKey i j) edges = false ->
        has (edgeKey i j) (addEdge true edges i j) = false
        /\ has (edgeKey j i) (addEdge true edges i j) = false).
Proof.
  apply (@alphaShape_square_perimeter (fun _ => Returned [0; 1; 2; 0; 2; 3]) [0; 1; 2; 0; 2; 3]).
  - vm_compute. left. reflexivity.
  - reflexivity.
Defined.

(** C3: [alphaShape] never raises: for every input it returns an edge list;
    and the list is empty when fewer than four points are supplied, when no
    triangle passes the test [R < alpha], and when the triangulation step
    raises. *)
Theorem alphaShape_never_raises
    (delaunay : list point -> outcome (list nat))
    (points : list point) (alpha : float) (onlyOuter : bool) :
  (exists es, alphaShape delaunay points alpha onlyOuter = Returned es)
  /\ (length points < 4 -> alphaShape delaunay points alpha onlyOuter = Returned [])
  /\ (forall tris,
        delaunay points = Returned tris ->
        noTrianglePasses points alpha tris = true ->
        alphaShape delaunay points alpha onlyOuter = Returned [])
  /\ (forall e,
        delaunay points = Thrown e ->
        alphaShape delaunay points alpha onlyOuter = Returned []).
Proof.
  unfold alphaShape. repeat split.
  - destruct (length points <? 4); [eexists; reflexivity|].
    destruct (tryBlock delaunay points alpha onlyOuter); eexists; reflexivity.
  - intros Hlt. apply Nat.ltb_lt in Hlt. rewrite Hlt. reflexivity.
  - intros tris Hdel Hno. destruct (length points <? 4); [reflexivity|].
    unfold tryBlock. rewrite Hdel. simpl.
    destruct (triangleLoop_noTrianglePasses points alpha onlyOuter tris Hno StrMap.empty)
      as [H|[e H]]; rewrite H; reflexivity.
  - intros e Hdel. destruct (length points <? 4); [reflexivity|].
    unfold tryBlock. rewrite Hdel. reflexivity.
Qed.

(** Three points; the unit square with alpha = 0.5, below the circumradius of
    its triangles; a triangulation routine that throws. *)
Lemma alphaShape_never_raises_witness :
  alphaShape Scenario.quadDelaunay [(0, 0); (1, 0); (1, 1)]%float 10 true = Returned []
  /\ alphaShape Scenario.quadDelaunay unitSquare 0.5 true = Returned []
  /\ alphaShape (fun _ => Thrown LibraryError) unitSquare 10 true = Returned [].
Proof.
  split; [|split].
  - apply (alphaShape_never_raises Scenario.quadDelaunay [(0, 0); (1, 0); (1, 1)]%float 10 true).
    simpl. lia.
  - apply (proj1 (proj2 (proj2
             (alphaShape_never_raises Scenario.quadDelaunay unitSquare 0.5 true))))
      with (tris := [0; 1; 2; 0; 2; 3]).
    + reflexivity.
    + vm_compute. reflexivity.
  - apply (proj2 (proj2 (proj2
             (alphaShape_never_raises (fun _ => Thrown LibraryError) unitSquare 10 true))))
      with (e := LibraryError).
    reflexivity.
Defined.

End AlphaShapeFacts.

(** ** components/clustering.ts: the point filter and the cluster counts *)

Module FilterFacts.

Import Scenario.

(** The filter keeps a record exactly when both fields are present and
    neither converts to NaN. *)
Lemma validRow_iff (r : DataRow) :
  validRow r = true <->
  exists lat lon, Latitude r = Some lat /\ Longitude r = Some lon
                  /\ isNaN lat = false /\ isNaN lon = false.
Proof.
  unfold validRow. destruct r as [[lat|] [lon|]]; simpl.
  - rewrite !andb_true_iff, !negb_true_iff. split.
    + intros [Hlat Hlon]. exists lat, lon. tauto.
    + intros (lat' & lon' & E1 & E2 & H1 & H2). inversion E1; inversion E2; subst. tauto.
  - split; [discriminate|]. intros (? & ? & _ & E & _). discriminate.
  - split; [discriminate|]. intros (? & ? & E & _). discriminate.
  - split; [discriminate|]. intros (? & ? & E & _). discriminate.
Qed.

(** C8, as the code has it: the point filter retains exactly the records
    whose latitude and longitude are both present and both convert to a
    number that is not NaN.  No coordinate of a filtered point is NaN, every
    filtered point comes from such a record, and no such record is dropped.
    (An infinite coordinate passes the filter.) *)
Theorem features_retains_present_non_nan (data : list DataRow) :
  (forall r, validRow r = true <->
     exists lat lon, Latitude r = Some lat /\ Longitude r = Some lon
                     /\ isNaN lat = false /\ isNaN lon = false)
  /\ Forall (fun p => isNaN (fst p) = false /\ isNaN (snd p) = false) (features data)
  /\ (forall p, In p (features data) ->
        exists r, In r data /\ Latitude r = Some (fst p) /\ Longitude r = Some (snd p))
  /\ (forall r lat lon,
        In r data -> Latitude r = Some lat -> Longitude r = Some lon ->
        isNaN lat = false -> isNaN lon = false ->
        In (lat, lon) (features data)).
Proof.
  split; [exact validRow_iff|]. unfold features. split; [|split].
  - apply Forall_forall. intros p Hin. apply in_map_iff in Hin.
    destruct Hin as (r & Hp & Hr). apply filter_In in Hr. destruct Hr as [_ Hv].
    apply validRow_iff in Hv. destruct Hv as (lat & lon & E1 & E2 & H1 & H2).
    subst p. unfold latLon. rewrite E1, E2. simpl. tauto.
  - intros p Hin. apply in_map_iff in Hin.
    destruct Hin as (r & Hp & Hr). apply filter_In in Hr. destruct Hr as [Hd Hv].
    apply validRow_iff in Hv. destruct Hv as (lat & lon & E1 & E2 & _).
    exists r. subst p. unfold latLon. rewrite E1, E2. simpl. tauto.
  - intros r lat lon Hin E1 E2 H1 H2. apply in_map_iff. exists r. split.
    + unfold latLon. rewrite E1, E2. reflexivity.
    + apply filter_In. split; [exact Hin|]. apply validRow_iff. exists lat, lon. tauto.
Qed.

(** C8, as stated, fails: a record whose latitude is infinite passes the
    filter, and its point carries a coordinate that is not finite. *)
Lemma features_keeps_infinite_coordinate :
  features [rowAtInfinity] = [(infinity, 0%float)]
  /\ is_finite infinity = false.
Proof. split; reflexivity. Qed.

End FilterFacts.

Module CountFacts.

Import Scenario.

Section Counts.

Variable kmeans : list point -> Z -> outcome (option KMeansResult).
Variable delaunay : list point -> outcome (list nat).
Variable floorPow : nat -> Z.

Lemma primaryArgs_None (data : list DataRow) (nCluster : Z) :
  (Z.min nCluster (Z.of_nat (length (features data))) < 1)%Z \/ features data = [] ->
  primaryArgs data nCluster = None.
Proof.
  unfold primaryArgs, actualNClusters. intros [H|H].
  - apply Z.ltb_lt in H. rewrite H. reflexivity.
  - rewrite H. simpl. rewrite orb_true_r. reflexivity.
Qed.

Lemma primaryArgs_Some (data : list DataRow) (nCluster : Z) (pts : list point) (k : Z) :
  primaryArgs data nCluster = Some (pts, k) ->
  pts = features data
  /\ k = Z.min nCluster (Z.of_nat (length (features data)))
  /\ (1 <= k)%Z /\ 1 <= length (features data).
Proof.
  unfold primaryArgs, actualNClusters. intros H.
  destruct (Z.min nCluster (Z.of_nat (length (features data))) <? 1)%Z eqn:E1;
    [discriminate|].
  destruct (length (features data) <? 1) eqn:E2; [discriminate|].
  simpl in H. inversion H; subst. apply Z.ltb_ge in E1. apply Nat.ltb_ge in E2.
  repeat split; assumption.
Qed.

(** C4: the primary cluster count is [min(requested, number of valid
    points)]: that is the count the primary clustering run is given; and when
    the clamped value is below 1 or there is no valid point, no clustering is
    run and [analyze] returns the empty output. *)
Theorem analyze_clamps_primary_count (data : list DataRow) (nCluster : Z) :
  actualNClusters data nCluster = Z.min nCluster (Z.of_nat (length (features data)))
  /\ (forall pts k,
        primaryArgs data nCluster = Some (pts, k) ->
        pts = features data /\ k = Z.min nCluster (Z.of_nat (length (features data))))
  /\ ((Z.min nCluster (Z.of_nat (length (features data))) < 1)%Z \/ features data = [] ->
        primaryArgs data nCluster = None
        /\ analyze kmeans delaunay floorPow data nCluster
           = Returned {| longs := []; lats := [] |}).
Proof.
  split; [reflexivity|]. split.
  - intros pts k H. apply primaryArgs_Some in H. tauto.
  - intros H. apply primaryArgs_None in H. split; [exact H|].
    unfold analyze, primaryClustering. rewrite H. reflexivity.
Qed.

Lemma isFloorRoot4_unique (m : nat) (r s : Z) :
  isFloorRoot4 m r -> isFloorRoot4 m s -> r = s.
Proof.
  unfold isFloorRoot4. intros [Hr [Hr1 Hr2]] [Hs [Hs1 Hs2]].
  assert (Hmono : forall a b : Z, (0 <= a)%Z -> (a + 1 <= b)%Z -> ((a + 1) ^ 4 <= b ^ 4)%Z).
  { intros a b Ha Hab. apply Z.pow_le_mono_l. lia. }
  destruct (Z.lt_trichotomy r s) as [Hlt|[Heq|Hgt]]; [|exact Heq|].
  - specialize (Hmono r s Hr ltac:(lia)). lia.
  - specialize (Hmono s r Hs ltac:(lia)). lia.
Qed.

(** The exact fourth root is a floor of the fourth root. *)
Lemma exactFloorPowQuarter_spec (m : nat) : isFloorRoot4 m (exactFloorPowQuarter m).
Proof.
  unfold isFloorRoot4, exactFloorPowQuarter.
  set (n := Z.of_nat m). assert (Hn : (0 <= n)%Z) by (subst n; lia).
  set (a := Z.sqrt n). assert (Ha : (0 <= a)%Z) by apply Z.sqrt_nonneg.
  set (b := Z.sqrt a). assert (Hb : (0 <= b)%Z) by apply Z.sqrt_nonneg.
  pose proof (Z.sqrt_spec n Hn) as Hsn. fold a in Hsn.
  pose proof (Z.sqrt_spec a Ha) as Hsa. fold b in Hsa.
  unfold Z.succ in Hsn, Hsa. destruct Hsn as [Hn1 Hn2]. destruct Hsa as [Ha1 Ha2].
  replace (b ^ 4)%Z with ((b * b) * (b * b))%Z by ring.
  replace ((b + 1) ^ 4)%Z with (((b + 1) * (b + 1)) * ((b + 1) * (b + 1)))%Z by ring.
  split; [exact Hb|]. split.
  - apply Z.le_trans with (a * a)%Z; [|exact Hn1].
    apply Z.mul_le_mono_nonneg; lia.
  - apply Z.lt_le_trans with ((a + 1) * (a + 1))%Z; [exact Hn2|].
    apply Z.mul_le_mono_nonneg; lia.
Qed.

Lemma subClusterCount_max (m : nat) :
  subClusterCount floorPow m = Z.max 1 (floorPow m).
Proof.
  unfold subClusterCount. destruct (floorPow m <? 1)%Z eqn:E.
  - apply Z.ltb_lt in E. lia.
  - apply Z.ltb_ge in E. lia.
Qed.

Lemma secondaryArgs_Some (data : list DataRow) (cl : list Z) (c : Z)
    (pts : list point) (k : Z) :
  secondaryArgs floorPow data cl c = Some (pts, k) ->
  pts = clusterPoints data cl c /\ k = subClusterCount floorPow (length pts)
  /\ 4 <= length pts.
Proof.
  unfold secondaryArgs. destruct (length (clusterPoints data cl c) <? 4) eqn:E; [discriminate|].
  intros H. inversion H; subst. apply Nat.ltb_ge in E. repeat split. exact E.
Qed.

End Counts.

(** Nine clusters requested for four valid points; no valid point at all. *)
Lemma analyze_clamps_primary_count_witness :
  actualNClusters misaligned 9 = 4%Z
  /\ analyze (kmeansOnce [0]) quadDelaunay exactFloorPowQuarter [missingRow] 3
     = Returned {| longs := []; lats := [] |}.
Proof.
  split.
  - apply (proj1 (analyze_clamps_primary_count
                    (kmeansOnce [0]) quadDelaunay exactFloorPowQuarter misaligned 9)).
  - apply (proj2 (proj2 (analyze_clamps_primary_count
                    (kmeansOnce [0]) quadDelaunay exactFloorPowQuarter [missingRow] 3))).
    right. reflexivity.
Defined.

(** C5: for a primary cluster of size m >= 1, where the engine's
    [Math.floor(Math.pow(m, 0.25))] is the floor of the fourth root of m, the
    secondary cluster count is [max(1, floor(m^0.25))], which is that floor
    itself; it is 2 for m = 16 and 1 for m = 1, and for m = 80, whose fourth
    root is 2.99, it is 2: the value is floored, not rounded.  This is the
    count every secondary clustering run is started with. *)
Theorem secondary_count_floor_fourth_root (floorPow : nat -> Z) (m : nat) :
  1 <= m ->
  isFloorRoot4 m (floorPow m) ->
  subClusterCount floorPow m = Z.max 1 (floorPow m)
  /\ isFloorRoot4 m (subClusterCount floorPow m)
  /\ (m = 16 -> subClusterCount floorPow m = 2%Z)
  /\ (m = 1 -> subClusterCount floorPow m = 1%Z)
  /\ (m = 80 -> subClusterCount floorPow m = 2%Z)
  /\ (forall data cl c pts k,
        secondaryArgs floorPow data cl c = Some (pts, k) ->
        length pts = m ->
        k = Z.max 1 (floorPow m)).
Proof.
  intros Hm Hroot.
  assert (Hone : (1 <= floorPow m)%Z).
  { destruct Hroot as [H0 [_ Hup]].
    destruct (Z.eq_dec (floorPow m) 0) as [E|E]; [|lia].
    rewrite E in Hup. simpl in Hup. lia. }
  assert (Hsub : subClusterCount floorPow m = floorPow m).
  { rewrite subClusterCount_max. lia. }
  split; [apply subClusterCount_max|].
  split; [rewrite Hsub; exact Hroot|].
  rewrite Hsub.
  assert (Hat : forall r, isFloorRoot4 m r -> floorPow m = r).
  { intros r Hr. exact (isFloorRoot4_unique m _ _ Hroot Hr). }
  repeat split.
  - intros ->. apply Hat. unfold isFloorRoot4. simpl. lia.
  - intros ->. apply Hat. unfold isFloorRoot4. simpl. lia.
  - intros ->. apply Hat. unfold isFloorRoot4. simpl. lia.
  - intros data cl c pts k Hargs Hlen. apply secondaryArgs_Some in Hargs.
    destruct Hargs as (_ & Hk & _). rewrite Hk, Hlen. apply subClusterCount_max.
Qed.

(** A cluster of 16 points, with the exact fourth root. *)
Lemma secondary_count_floor_fourth_root_witness :
  subClusterCount exactFloorPowQuarter 16 = Z.max 1 (exactFloorPowQuarter 16)
  /\ isFloorRoot4 16 (subClusterCount exactFloorPowQuarter 16)
  /\ (16 = 16 -> subClusterCount exactFloorPowQuarter 16 = 2%Z)
  /\ (16 = 1 -> subClusterCount exactFloorPowQuarter 16 = 1%Z)
  /\ (16 = 80 -> subClusterCount exactFloorPowQuarter 16 = 2%Z)
  /\ (forall data cl c pts k,
        secondaryArgs exactFloorPowQuarter data cl c = Some (pts, k) ->
        length pts = 16 ->
        k = Z.max 1 (exactFloorPowQuarter 16)).
Proof.
  apply (secondary_count_floor_fourth_root exactFloorPowQuarter 16).
  - lia.
  - unfold isFloorRoot4. vm_compute. intuition discriminate.
Defined.

End CountFacts.

(** ** components/clustering.ts: the boundary assembly *)

Module AssemblyFacts.

Import Scenario.

Lemma appendOutput_empty_l (o : Output) : appendOutput emptyOutput o = o.
Proof. destruct o. reflexivity. Qed.

Lemma appendOutput_empty_r (o : Output) : appendOutput o emptyOutput = o.
Proof. destruct o. unfold appendOutput. simpl. rewrite !app_nil_r. reflexivity. Qed.

Lemma appendOutput_assoc (a b c : Output) :
  appendOutput (appendOutput a b) c = appendOutput a (appendOutput b c).
Proof. unfold appendOutput. simpl. rewrite !app_assoc. reflexivity. Qed.

(** Pushing an edge appends what the edge gives on its own. *)
Lemma pushEdge_append (centers : list point) (out : Output) (e : edge) :
  pushEdge centers out e = appendOutput out (pushEdge centers emptyOutput e).
Proof.
  destruct e as [j k]. unfold pushEdge.
  destruct ((j <? length centers) && (k <? length centers)).
  - reflexivity.
  - rewrite appendOutput_empty_r. reflexivity.
Qed.

Lemma fold_pushEdge_append (centers : list point) (edges : list edge) (out : Output) :
  fold_left (pushEdge centers) edges out = appendOutput out (segmentsOf centers edges).
Proof.
  unfold segmentsOf. revert out. induction edges as [|e edges IH]; intros out; simpl.
  - rewrite appendOutput_empty_r. reflexivity.
  - rewrite IH. rewrite (IH (pushEdge centers emptyOutput e)).
    rewrite (pushEdge_append centers out e). apply appendOutput_assoc.
Qed.

Lemma segmentsOf_app (centers : list point) (e1 e2 : list edge) :
  segmentsOf centers (e1 ++ e2)
  = appendOutput (segmentsOf centers e1) (segmentsOf centers e2).
Proof.
  unfold segmentsOf at 1. rewrite fold_left_app.
  rewrite fold_pushEdge_append. reflexivity.
Qed.

Lemma pushEdge_out_of_range (centers : list point) (out : Output) (j k : nat) :
  length centers <= j \/ length centers <= k ->
  pushEdge centers out (j, k) = out.
Proof.
  intros H. unfold pushEdge.
  assert (E : (j <? length centers) && (k <? length centers) = false).
  { apply andb_false_iff. destruct H as [H|H]; [left|right]; apply Nat.ltb_ge; exact H. }
  rewrite E. reflexivity.
Qed.

Lemma pushEdge_in_range (centers : list point) (out : Output) (j k : nat) (pj pk : point) :
  nth_error centers j = Some pj -> nth_error centers k = Some pk ->
  pushEdge centers out (j, k)
  = {| longs := longs out ++ [[fst pj; fst pk]]; lats := lats out ++ [[snd pj; snd pk]] |}.
Proof.
  intros Hj Hk. unfold pushEdge.
  assert (Lj : j < length centers) by (apply nth_error_Some; congruence).
  assert (Lk : k < length centers) by (apply nth_error_Some; congruence).
  apply Nat.ltb_lt in Lj. apply Nat.ltb_lt in Lk. rewrite Lj, Lk. simpl.
  rewrite (nth_error_nth _ _ _ Hj), (nth_error_nth _ _ _ Hk). reflexivity.
Qed.

(** The segment of every edge is made of two centroids of the set. *)
Lemma segmentsOf_segments (centers : list point) (edges : list edge) :
  Forall2 (isSegmentOf centers edges)
    (longs (segmentsOf centers edges)) (lats (segmentsOf centers edges)).
Proof.
  assert (H : forall es, incl es edges ->
            Forall2 (isSegmentOf centers edges)
              (longs (segmentsOf centers es)) (lats (segmentsOf centers es))).
  { induction es as [|[j k] es IH]; intros Hincl.
    - constructor.
    - change ((j, k) :: es) with ([(j, k)] ++ es). rewrite segmentsOf_app.
      change (segmentsOf centers [(j, k)]) with (pushEdge centers emptyOutput (j, k)).
      unfold appendOutput. cbn [longs lats].
      apply Forall2_app.
      + destruct (nth_error centers j) as [pj|] eqn:Ej.
        * destruct (nth_error centers k) as [pk|] eqn:Ek.
          -- rewrite (pushEdge_in_range _ _ _ _ _ _ Ej Ek). simpl.
             constructor; [|constructor].
             exists j, k, pj, pk. repeat split; auto. apply Hincl. left. reflexivity.
          -- rewrite pushEdge_out_of_range; [constructor|].
             right. apply nth_error_None. exact Ek.
        * rewrite pushEdge_out_of_range; [constructor|].
          left. apply nth_error_None. exact Ej.
      + apply IH. intros x Hx. apply Hincl. right. exact Hx. }
  apply H. apply incl_refl.
Qed.

(** The outer loop, once the two arrays go in step: no turn throws, and the
    segments of the centroid sets follow each other in the order of the
    arrays. *)
Lemma assembleFrom_aligned (rest : list (list point)) :
  forall (Prest Ppre : list (list edge)) (out : Output),
    length rest = length Prest ->
    assembleFrom (length Ppre) rest (Ppre ++ Prest) out
    = Returned (appendOutput out
        (mergeOutputs (map (fun ce => segmentsOf (fst ce) (snd ce)) (combine rest Prest)))).
Proof.
  induction rest as [|centers rest IH]; intros Prest Ppre out Hlen.
  - simpl. rewrite appendOutput_empty_r. reflexivity.
  - destruct Prest as [|edges Prest]; [discriminate|]. simpl in Hlen.
    simpl assembleFrom.
    rewrite nth_error_app2 by lia. rewrite Nat.sub_diag. simpl nth_error. cbv iota.
    replace (S (length Ppre)) with (length (Ppre ++ [edges]))
      by (rewrite length_app; simpl; lia).
    replace (Ppre ++ edges :: Prest) with ((Ppre ++ [edges]) ++ Prest)
      by (rewrite <- app_assoc; reflexivity).
    rewrite IH by lia. rewrite fold_pushEdge_append. simpl.
    rewrite appendOutput_assoc. reflexivity.
Qed.

Lemma assemble_aligned (Hcenters : list (list point)) (Pedges : list (list edge)) :
  length Hcenters = length Pedges ->
  assemble Hcenters Pedges
  = Returned (mergeOutputs
      (map (fun ce => segmentsOf (fst ce) (snd ce)) (combine Hcenters Pedges))).
Proof.
  intros Hlen. unfold assemble.
  pose proof (assembleFrom_aligned Hcenters Pedges [] emptyOutput Hlen) as H.
  simpl in H. rewrite H. rewrite appendOutput_empty_l. reflexivity.
Qed.

Lemma combine_app_aligned {A B : Type} (l1 l1' : list A) (l2 l2' : list B) :
  length l1 = length l2 ->
  combine (l1 ++ l1') (l2 ++ l2') = combine l1 l2 ++ combine l1' l2'.
Proof.
  revert l2. induction l1 as [|a l1 IH]; intros [|b l2] Hlen; try discriminate.
  - reflexivity.
  - simpl. f_equal. apply IH. simpl in Hlen. lia.
Qed.

(** C7, as the code has it: in the boundary-assembly step an edge whose
    endpoint index j or k is out of range for its centroid set is skipped:
    the step returns, and returns what it returns without that edge. *)
Theorem assemble_skips_out_of_range
    (H1 H2 : list (list point)) (P1 P2 : list (list edge))
    (centers : list point) (e1 e2 : list edge) (j k : nat) :
  length H1 = length P1 ->
  length H2 = length P2 ->
  length centers <= j \/ length centers <= k ->
  assemble (H1 ++ centers :: H2) (P1 ++ (e1 ++ (j, k) :: e2) :: P2)
  = assemble (H1 ++ centers :: H2) (P1 ++ (e1 ++ e2) :: P2)
  /\ exists out,
       assemble (H1 ++ centers :: H2) (P1 ++ (e1 ++ (j, k) :: e2) :: P2) = Returned out.
Proof.
  intros L1 L2 Hout.
  assert (Hseg : segmentsOf centers (e1 ++ (j, k) :: e2) = segmentsOf centers (e1 ++ e2)).
  { rewrite !segmentsOf_app. f_equal.
    unfold segmentsOf. cbn [fold_left].
    rewrite (pushEdge_out_of_range _ _ _ _ Hout). reflexivity. }
  rewrite !assemble_aligned by (rewrite !length_app; simpl; lia).
  split; [|eexists; reflexivity].
  f_equal. f_equal.
  rewrite !combine_app_aligned by exact L1. rewrite !map_app. simpl. rewrite Hseg. reflexivity.
Qed.

(** The edge [0, 7] after the edge [0, 1] of four centroids. *)
Lemma assemble_skips_out_of_range_witness :
  assemble ([] ++ fourCenters :: []) ([] ++ ([(0, 1)] ++ (0, 7) :: []) :: [])
  = assemble ([] ++ fourCenters :: []) ([] ++ ([(0, 1)] ++ []) :: [])
  /\ exists out,
       assemble ([] ++ fourCenters :: []) ([] ++ ([(0, 1)] ++ (0, 7) :: []) :: [])
       = Returned out.
Proof.
  apply (assemble_skips_out_of_range [] [] [] [] fourCenters [(0, 1)] [] 0 7).
  - reflexivity.
  - reflexivity.
  - right. simpl. lia.
Defined.

(** C7, as stated, fails: with four centroids, the edge [0, 7] names an index
    out of range; the step returns normally, with no segment for the edge. *)
Lemma assemble_out_of_range_returns :
  length fourCenters <= 7
  /\ assemble [fourCenters] [[(0, 7)]] = Returned {| longs := []; lats := [] |}
  /\ returns (assemble [fourCenters] [[(0, 7)]]) = true.
Proof. repeat split. simpl. lia. Qed.

End AssemblyFacts.

(** ** components/clustering.ts: the loop over the primary clusters *)

Module PipelineFacts.

Import Scenario AssemblyFacts.

Lemma filter_filter_and {A : Type} (f g : A -> bool) (l : list A) :
  filter f (filter g l) = filter (fun x => g x && f x) l.
Proof.
  induction l as [|x l IH]; simpl; [reflexivity|].
  destruct (g x); simpl; [destruct (f x)|]; rewrite IH; reflexivity.
Qed.

Lemma existsb_snoc (y x : Z) (acc : list Z) :
  existsb (Z.eqb y) (acc ++ [x]) = existsb (Z.eqb y) acc || Z.eqb y x.
Proof. rewrite existsb_app. simpl. rewrite orb_false_r. reflexivity. Qed.

(** The set built from an array, started from the elements [acc]. *)
Lemma fold_setAdd_firstAppearances (cl acc : list Z) :
  fold_left setAdd cl acc
  = acc ++ filter (fun y => negb (existsb (Z.eqb y) acc)) (firstAppearances cl).
Proof.
  revert acc. induction cl as [|x cl IH]; intros acc; simpl.
  - rewrite app_nil_r. reflexivity.
  - rewrite IH. unfold setAdd. destruct (existsb (Z.eqb x) acc) eqn:E; simpl.
    + f_equal. rewrite filter_filter_and. apply filter_ext_in. intros y _.
      destruct (Z.eqb y x) eqn:Eyx; simpl; [|reflexivity].
      apply Z.eqb_eq in Eyx. subst y. rewrite E. reflexivity.
    + rewrite <- app_assoc. simpl. f_equal. f_equal.
      rewrite filter_filter_and. apply filter_ext. intros y.
      rewrite existsb_snoc. rewrite negb_orb. apply andb_comm.
Qed.

Lemma uniqueClusters_firstAppearances (cl : list Z) :
  uniqueClusters cl = firstAppearances cl.
Proof.
  unfold uniqueClusters. rewrite fold_setAdd_firstAppearances. simpl.
  clear. induction (firstAppearances cl) as [|a l IH]; simpl; congruence.
Qed.

Section Loop.

Variable kmeans : list point -> Z -> outcome (option KMeansResult).
Variable delaunay : list point -> outcome (list nat).
Variable floorPow : nat -> Z.
Variable data : list DataRow.
Variable cl : list Z.

(** What the loop leaves on [Hcenters] and [Pedges] when it ends. *)
Lemma clusterLoop_collects (ids : list Z) :
  forall H P H' P',
    clusterLoop kmeans delaunay floorPow data cl ids H P = Returned (H', P') ->
    exists HP : list (list point * list edge),
      H' = H ++ map fst HP /\ P' = P ++ map snd HP
      /\ Forall (pushedBy kmeans delaunay floorPow data cl ids) HP
      /\ mergeOutputs (map (fun ce => segmentsOf (fst ce) (snd ce)) HP)
         = mergeOutputs (map (clusterOutput kmeans delaunay floorPow data cl) ids).
Proof.
  induction ids as [|c ids IH]; intros H P H' P' Hrun; simpl in Hrun.
  - inversion Hrun; subst. exists []. simpl. rewrite !app_nil_r. repeat split. constructor.
  - destruct (processCluster kmeans delaunay floorPow data cl c) as [[[centers edges]|]|e] eqn:Ec;
      simpl in Hrun; [| |discriminate].
    + apply IH in Hrun. destruct Hrun as (HP & EH & EP & Hall & Hmerge).
      exists ((centers, edges) :: HP). simpl. rewrite <- !app_assoc in EH, EP.
      split; [exact EH|]. split; [exact EP|]. split.
      * constructor.
        -- exists c. split; [left; reflexivity | exact Ec].
        -- eapply Forall_impl; [|exact Hall]. intros ce (c' & Hin & Hp).
           exists c'. split; [right; exact Hin | exact Hp].
      * unfold clusterOutput at 1. rewrite Ec. rewrite Hmerge. reflexivity.
    + apply IH in Hrun. destruct Hrun as (HP & EH & EP & Hall & Hmerge).
      exists HP. split; [exact EH|]. split; [exact EP|]. split.
      * eapply Forall_impl; [|exact Hall]. intros ce (c' & Hin & Hp).
        exists c'. split; [right; exact Hin | exact Hp].
      * simpl. unfold clusterOutput at 1. rewrite Ec. rewrite appendOutput_empty_l.
        exact Hmerge.
Qed.

Lemma combine_fst_snd {A B : Type} (l : list (A * B)) :
  combine (map fst l) (map snd l) = l.
Proof. induction l as [|[a b] l IH]; simpl; congruence. Qed.

(** The segments of the pushed centroid sets, one set after the other. *)
Lemma merged_segments (ids : list Z) (HP : list (list point * list edge)) :
  Forall (pushedBy kmeans delaunay floorPow data cl ids) HP ->
  Forall2 (fun lo la => exists ce, pushedBy kmeans delaunay floorPow data cl ids ce
                                  /\ isSegmentOf (fst ce) (snd ce) lo la)
    (longs (mergeOutputs (map (fun ce => segmentsOf (fst ce) (snd ce)) HP)))
    (lats (mergeOutputs (map (fun ce => segmentsOf (fst ce) (snd ce)) HP))).
Proof.
  induction HP as [|ce HP IH]; intros Hall; simpl.
  - constructor.
  - inversion Hall as [|? ? Hce Hrest]; subst. apply Forall2_app.
    + eapply Forall2_impl; [|apply segmentsOf_segments].
      intros lo la Hseg. exists ce. split; assumption.
    + apply IH. exact Hrest.
Qed.

(** From the primary assignment to the output: the contributions of the
    clusters, in the order of [uniqueClusters]; the assembly adds no failure
    of its own. *)
Lemma boundaries_Returned (out : Output) :
  boundaries kmeans delaunay floorPow data cl = Returned out ->
  out = mergeOutputs
          (map (clusterOutput kmeans delaunay floorPow data cl) (uniqueClusters cl))
  /\ Forall2 (fun lo la => exists ce, pushedBy kmeans delaunay floorPow data cl (uniqueClusters cl) ce
                                     /\ isSegmentOf (fst ce) (snd ce) lo la)
       (longs out) (lats out).
Proof.
  unfold boundaries. intros Hrun.
  destruct (clusterLoop kmeans delaunay floorPow data cl (uniqueClusters cl) [] [])
    as [[H' P']|e] eqn:Eloop; simpl in Hrun; [|discriminate].
  apply clusterLoop_collects in Eloop. destruct Eloop as (HP & EH & EP & Hall & Hmerge).
  simpl in EH, EP. subst H' P'.
  rewrite assemble_aligned in Hrun by (rewrite !length_map; reflexivity).
  rewrite combine_fst_snd in Hrun. inversion Hrun; subst. split.
  - exact Hmerge.
  - apply merged_segments. exact Hall.
Qed.

End Loop.

(** *** The order of the clusters *)

(** C6, as the code has it: the distinct primary cluster ids are processed,
    and the segment lists of the clusters follow each other in the output
    sequences, in the order in which the ids first appear in the primary
    assignment. *)
Theorem clusters_processed_in_first_appearance_order
    (kmeans : list point -> Z -> outcome (option KMeansResult))
    (delaunay : list point -> outcome (list nat)) (floorPow : nat -> Z)
    (data : list DataRow) (nCluster : Z) (cl : list Z) :
  primaryClustering kmeans data nCluster = Returned (Some cl) ->
  uniqueClusters cl = firstAppearances cl
  /\ analyze kmeans delaunay floorPow data nCluster
     = bind (clusterLoop kmeans delaunay floorPow data cl (firstAppearances cl) [] [])
         (fun hp => assemble (fst hp) (snd hp))
  /\ (forall out,
        analyze kmeans delaunay floorPow data nCluster = Returned out ->
        out = mergeOutputs
                (map (clusterOutput kmeans delaunay floorPow data cl) (firstAppearances cl))).
Proof.
  intros Hprim. split; [apply uniqueClusters_firstAppearances|].
  unfold analyze. rewrite Hprim. simpl bind.
  split.
  - unfold boundaries. rewrite uniqueClusters_firstAppearances. reflexivity.
  - intros out Hrun. apply boundaries_Returned in Hrun. destruct Hrun as [Hout _].
    rewrite uniqueClusters_firstAppearances in Hout. exact Hout.
Qed.

(** The two districts, the second record taken as the first centroid. *)
Lemma clusters_processed_in_first_appearance_order_witness :
  uniqueClusters eastIsZero = firstAppearances eastIsZero
  /\ analyze (kmeansOnce [1; 0; 2; 3]) quadDelaunay exactFloorPowQuarter twoDistricts 2
     = bind (clusterLoop (kmeansOnce [1; 0; 2; 3]) quadDelaunay exactFloorPowQuarter
               twoDistricts eastIsZero (firstAppearances eastIsZero) [] [])
         (fun hp => assemble (fst hp) (snd hp))
  /\ (forall out,
        analyze (kmeansOnce [1; 0; 2; 3]) quadDelaunay exactFloorPowQuarter twoDistricts 2
        = Returned out ->
        out = mergeOutputs
                (map (clusterOutput (kmeansOnce [1; 0; 2; 3]) quadDelaunay
                        exactFloorPowQuarter twoDistricts eastIsZero)
                   (firstAppearances eastIsZero))).
Proof.
  apply (clusters_processed_in_first_appearance_order
           (kmeansOnce [1; 0; 2; 3]) quadDelaunay exactFloorPowQuarter
           twoDistricts 2 eastIsZero).
  vm_compute. reflexivity.
Defined.

(** C6, as stated, fails: on the two districts, when the clustering run takes
    the second record as centroid 0, the first record is in cluster 1; cluster
    1 (the west) is processed before cluster 0 (the east), and the western
    segments come first in the output. *)
Lemma clusters_not_processed_in_ascending_order :
  primaryClustering (kmeansOnce [1; 0; 2; 3]) twoDistricts 2 = Returned (Some eastIsZero)
  /\ uniqueClusters eastIsZero = [1; 0]%Z
  /\ ascending (uniqueClusters eastIsZero) = false
  /\ clusterOutput (kmeansOnce [1; 0; 2; 3]) quadDelaunay exactFloorPowQuarter
       twoDistricts eastIsZero 0 = eastOutput
  /\ clusterOutput (kmeansOnce [1; 0; 2; 3]) quadDelaunay exactFloorPowQuarter
       twoDistricts eastIsZero 1 = westOutput
  /\ analyze (kmeansOnce [1; 0; 2; 3]) quadDelaunay exactFloorPowQuarter twoDistricts 2
     = Returned (appendOutput westOutput eastOutput)
  /\ sameOutput (appendOutput westOutput eastOutput) (appendOutput eastOutput westOutput)
     = false.
Proof. repeat split; vm_compute; reflexivity. Qed.

(** *** The shape of the output *)

Lemma isSegmentOf_lengths (centers : list point) (edges : list edge) (lo la : list float) :
  isSegmentOf centers edges lo la -> length lo = 2 /\ length la = 2.
Proof. intros (j & k & pj & pk & _ & _ & _ & -> & ->). split; reflexivity. Qed.

(** C10, as the code has it: the two output sequences of [analyze] have equal
    length and each of their elements holds two numbers; position p of
    [longs] holds the longitudes of the two endpoints of a segment and
    position p of [lats] the latitudes of the same two endpoints, the
    endpoints being the centroids [j] and [k] of an edge [[j, k]] of one
    processed cluster (index 0 of a centroid is its longitude, index 1 its
    latitude).  So position p across both sequences forms one complete
    segment. *)
Theorem analyze_output_parallel
    (kmeans : list point -> Z -> outcome (option KMeansResult))
    (delaunay : list point -> outcome (list nat)) (floorPow : nat -> Z)
    (data : list DataRow) (nCluster : Z) (out : Output) :
  analyze kmeans delaunay floorPow data nCluster = Returned out ->
  length (longs out) = length (lats out)
  /\ Forall (fun pair => length pair = 2) (longs out)
  /\ Forall (fun pair => length pair = 2) (lats out)
  /\ Forall2 (fun lonPair latPair =>
        exists cl ce,
          primaryClustering kmeans data nCluster = Returned (Some cl)
          /\ pushedBy kmeans delaunay floorPow data cl (uniqueClusters cl) ce
          /\ isSegmentOf (fst ce) (snd ce) lonPair latPair)
       (longs out) (lats out).
Proof.
  intros Hrun.
  assert (Hseg : Forall2 (fun lonPair latPair =>
        exists cl ce,
          primaryClustering kmeans data nCluster = Returned (Some cl)
          /\ pushedBy kmeans delaunay floorPow data cl (uniqueClusters cl) ce
          /\ isSegmentOf (fst ce) (snd ce) lonPair latPair)
       (longs out) (lats out)).
  { unfold analyze in Hrun.
    destruct (primaryClustering kmeans data nCluster) as [[cl|]|e] eqn:Eprim;
      simpl in Hrun; [| |discriminate].
    - apply boundaries_Returned in Hrun. destruct Hrun as [_ Hall].
      eapply Forall2_impl; [|exact Hall].
      intros lo la (ce & Hp & Hs). exists cl, ce. repeat split; assumption.
    - inversion Hrun; subst. constructor. }
  split; [eapply Forall2_length; exact Hseg|].
  split; [|split; [|exact Hseg]].
  - induction Hseg as [|lo la los las (cl & ce & _ & _ & Hs) _ IH]; constructor; auto.
    apply isSegmentOf_lengths in Hs. tauto.
  - induction Hseg as [|lo la los las (cl & ce & _ & _ & Hs) _ IH]; constructor; auto.
    apply isSegmentOf_lengths in Hs. tauto.
Qed.

Lemma analyze_district :
  analyze (kmeansOnce [0; 1; 2; 3]) quadDelaunay exactFloorPowQuarter district 1
  = Returned districtOutput.
Proof. vm_compute. reflexivity. Qed.

(** The 256 records of one district, one primary cluster, four secondary
    centroids on the corners of the square. *)
Lemma analyze_output_parallel_witness :
  length (longs districtOutput) = length (lats districtOutput)
  /\ Forall (fun pair => length pair = 2) (longs districtOutput)
  /\ Forall (fun pair => length pair = 2) (lats districtOutput)
  /\ Forall2 (fun lonPair latPair =>
        exists cl ce,
          primaryClustering (kmeansOnce [0; 1; 2; 3]) district 1 = Returned (Some cl)
          /\ pushedBy (kmeansOnce [0; 1; 2; 3]) quadDelaunay exactFloorPowQuarter
               district cl (uniqueClusters cl) ce
          /\ isSegmentOf (fst ce) (snd ce) lonPair latPair)
       (longs districtOutput) (lats districtOutput).
Proof.
  apply (analyze_output_parallel
           (kmeansOnce [0; 1; 2; 3]) quadDelaunay exactFloorPowQuarter district 1).
  vm_compute. reflexivity.
Defined.

(** C10, as stated, fails: on the district the first element of [longs] is
    the pair of longitudes (1, 2) and the first element of [lats] the pair of
    latitudes (5, 5); no element of either sequence is the (longitude,
    latitude) pair of a point of the input, and so of an endpoint. *)
Lemma analyze_output_not_coordinate_pairs :
  analyze (kmeansOnce [0; 1; 2; 3]) quadDelaunay exactFloorPowQuarter district 1
  = Returned districtOutput
  /\ existsb (isPointOf (map lonLat district)) (longs districtOutput ++ lats districtOutput)
     = false.
Proof. split; vm_compute; reflexivity. Qed.

(** *** The points of a primary cluster *)

Lemma filter_all {A : Type} (f : A -> bool) (l : list A) :
  forallb f l = true -> filter f l = l.
Proof.
  induction l as [|x l IH]; simpl; [reflexivity|].
  intros H. apply andb_true_iff in H. destruct H as [Hx Hl]. rewrite Hx, IH by exact Hl.
  reflexivity.
Qed.

(** When every record passes the filter, the records and the filtered points
    go by the same indices, and a cluster gets its own points. *)
Lemma clusterPoints_all_valid (data : list DataRow) (cl : list Z) (c : Z) :
  forallb validRow data = true ->
  clusterPoints data cl c = assignedPoints data cl c.
Proof.
  intros Hall. unfold clusterPoints, clusterRows, assignedPoints.
  rewrite (filter_all _ _ Hall). reflexivity.
Qed.

(** C2 fails on the code: with a record without coordinates in front of four
    good ones and one requested cluster, the primary run is given the four
    good points and puts them all in cluster 0; the secondary run of cluster 0
    is given the point of the record without coordinates (NaN, NaN) and the
    first three good points, where the points assigned to cluster 0 are the
    four good ones. *)
Theorem secondary_points_misaligned :
  primaryArgs misaligned 1
  = Some ([(1, 2); (3, 4); (5, 6); (7, 8)]%float, 1%Z)
  /\ primaryClustering (kmeansOnce [0]) misaligned 1 = Returned (Some [0; 0; 0; 0]%Z)
  /\ (forall floorPow,
        secondaryArgs floorPow misaligned [0; 0; 0; 0]%Z 0
        = Some ([(nan, nan); (2, 1); (4, 3); (6, 5)]%float, subClusterCount floorPow 4))
  /\ assignedPoints misaligned [0; 0; 0; 0]%Z 0 = [(2, 1); (4, 3); (6, 5); (8, 7)]%float
  /\ clusterPoints misaligned [0; 0; 0; 0]%Z 0 <> assignedPoints misaligned [0; 0; 0; 0]%Z 0.
Proof.
  split; [reflexivity|]. split; [reflexivity|]. split; [intros; reflexivity|].
  split; [reflexivity|].
  intros H.
  apply (f_equal (fun l => match l with p :: _ => isNaN (fst p) | [] => false end)) in H.
  vm_compute in H. discriminate.
Qed.

End PipelineFacts.

(** * Further properties *)

(** ** components/alphaShape.ts: the keys of the edge map *)

Module KeyFacts.

Lemma string_of_uint_noDash (d : Decimal.uint) : noDash (NilEmpty.string_of_uint d).
Proof. induction d; simpl; (exact I || (split; [discriminate | assumption])). Qed.

Lemma decimal_noDash (i : nat) : noDash (decimal i).
Proof. apply string_of_uint_noDash. Qed.

Lemma string_of_uint_inj (d d' : Decimal.uint) :
  NilEmpty.string_of_uint d = NilEmpty.string_of_uint d' -> d = d'.
Proof.
  intros H. apply (f_equal NilEmpty.uint_of_string) in H.
  rewrite !NilEmpty.usu in H. congruence.
Qed.

Lemma decimal_inj (i j : nat) : decimal i = decimal j -> i = j.
Proof.
  unfold decimal. intros H. apply string_of_uint_inj in H.
  apply DecimalNat.Unsigned.to_uint_inj. exact H.
Qed.

(** Two strings cut at their first separator. *)
Lemma split_at_dash (s1 s2 t1 t2 : string) :
  noDash s1 -> noDash s2 ->
  (s1 ++ String "-" t1)%string = (s2 ++ String "-" t2)%string ->
  s1 = s2 /\ t1 = t2.
Proof.
  revert s2. induction s1 as [|c s1 IH]; intros [|c' s2] H1 H2 E; simpl in *.
  - inversion E. split; reflexivity.
  - inversion E; subst. destruct H2 as [H2 _]. contradiction.
  - inversion E; subst. destruct H1 as [H1 _]. contradiction.
  - inversion E; subst. destruct H1 as [_ H1]. destruct H2 as [_ H2].
    destruct (IH s2 H1 H2 H3) as [-> ->]. split; reflexivity.
Qed.

Lemma edgeKey_eq_inv (i j k l : nat) :
  edgeKey i j = edgeKey k l -> i = k /\ j = l.
Proof.
  unfold edgeKey. simpl. intros E.
  apply split_at_dash in E; try apply decimal_noDash.
  destruct E as [E1 E2]. split; apply decimal_inj; assumption.
Qed.

(** The key [`${i}-${j}`] determines the pair [(i, j)]: two edges share a key
    of the edge map exactly when they are the same edge, so [edges.has] of a
    key answers for that edge and no other (1-23 is not 12-3). *)
Theorem edgeKey_inj (i j k l : nat) :
  (edgeKey i j = edgeKey k l <-> i = k /\ j = l)
  /\ String.eqb (edgeKey i j) (edgeKey k l) = (i =? k) && (j =? l).
Proof.
  assert (H : edgeKey i j = edgeKey k l <-> i = k /\ j = l).
  { split; [apply edgeKey_eq_inv | intros [-> ->]; reflexivity]. }
  split; [exact H|].
  destruct (String.eqb (edgeKey i j) (edgeKey k l)) eqn:E.
  - apply String.eqb_eq in E. apply H in E. destruct E as [-> ->].
    rewrite !Nat.eqb_refl. reflexivity.
  - apply String.eqb_neq in E. symmetry. apply andb_false_iff.
    destruct (Nat.eqb_spec i k) as [->|Hik]; [|left; reflexivity].
    destruct (Nat.eqb_spec j l) as [->|Hjl]; [|right; reflexivity].
    exfalso. apply E. reflexivity.
Qed.

End KeyFacts.

(** ** components/alphaShape.ts: the edge map seen as the list of its values *)

Module EdgeMapFacts.

Import StrMap StrMapFacts KeyFacts AlphaShapeFacts.

Lemma edgeEqb_eq (e f : edge) : edgeEqb e f = true <-> e = f.
Proof.
  destruct e as [i j], f as [k l]. unfold edgeEqb. simpl.
  rewrite andb_true_iff, !Nat.eqb_eq. split.
  - intros [-> ->]. reflexivity.
  - intros H. inversion H. split; reflexivity.
Qed.

Lemma edgeEqb_refl (e : edge) : edgeEqb e e = true.
Proof. apply edgeEqb_eq. reflexivity. Qed.

Lemma edgeEqb_sym (e f : edge) : edgeEqb e f = edgeEqb f e.
Proof.
  destruct (edgeEqb e f) eqn:E1, (edgeEqb f e) eqn:E2; try reflexivity.
  - apply edgeEqb_eq in E1. subst. rewrite edgeEqb_refl in E2. discriminate.
  - apply edgeEqb_eq in E2. subst. rewrite edgeEqb_refl in E1. discriminate.
Qed.

Lemma edgeEqb_neq (e f : edge) : edgeEqb e f = false <-> e <> f.
Proof.
  split.
  - intros H E. apply edgeEqb_eq in E. congruence.
  - intros H. destruct (edgeEqb e f) eqn:E; [|reflexivity].
    apply edgeEqb_eq in E. contradiction.
Qed.

Lemma memEdge_In (e : edge) (es : list edge) : memEdge e es = true <-> In e es.
Proof.
  unfold memEdge. rewrite existsb_exists. split.
  - intros (x & Hin & Hx). apply edgeEqb_eq in Hx. subst. exact Hin.
  - intros Hin. exists e. split; [exact Hin | apply edgeEqb_refl].
Qed.

Lemma memEdge_not_In (e : edge) (es : list edge) : memEdge e es = false <-> ~ In e es.
Proof.
  rewrite <- memEdge_In. destruct (memEdge e es); split; intros; congruence.
Qed.

Lemma reverseEdge_involutive (e : edge) : reverseEdge (reverseEdge e) = e.
Proof. destruct e. reflexivity. Qed.

Lemma eqb_edgeKey (i j : nat) (e : edge) :
  String.eqb (edgeKey i j) (edgeKey (fst e) (snd e)) = edgeEqb (i, j) e.
Proof.
  destruct e as [k l]. simpl.
  destruct (String.eqb (edgeKey i j) (edgeKey k l)) eqn:E.
  - apply String.eqb_eq in E. apply edgeKey_eq_inv in E. destruct E; subst.
    symmetry. apply edgeEqb_refl.
  - symmetry. apply edgeEqb_neq. intros H. inversion H; subst.
    rewrite String.eqb_refl in E. discriminate.
Qed.

(** Looking a key up is looking its edge up among the values. *)
Lemma has_values (m : StrMap.t edge) (i j : nat) :
  keyed m -> has (edgeKey i j) m = memEdge (i, j) (values m).
Proof.
  unfold keyed. induction m as [|[k v] m IH]; intros Hk; simpl; [reflexivity|].
  inversion Hk as [|? ? Hkv Hrest]; subst. simpl in Hkv. subst k.
  rewrite eqb_edgeKey. destruct (edgeEqb (i, j) v); simpl; [reflexivity|].
  apply IH. exact Hrest.
Qed.

Lemma values_delete (m : StrMap.t edge) (i j : nat) :
  keyed m -> wellFormed m ->
  values (delete (edgeKey i j) m) = filter (fun x => negb (edgeEqb x (i, j))) (values m).
Proof.
  unfold keyed, wellFormed. induction m as [|[k v] m IH]; intros Hk Hwf; simpl; [reflexivity|].
  inversion Hk as [|? ? Hkv Hrest]; subst. simpl in Hkv. subst k.
  inversion Hwf as [|? ? Hnot Hnd]; subst.
  rewrite eqb_edgeKey. rewrite (edgeEqb_sym v (i, j)).
  destruct (edgeEqb (i, j) v) eqn:E; simpl.
  - apply edgeEqb_eq in E. subst v. simpl in Hnot.
    symmetry. rewrite (filter_ext_in _ (fun _ => true)).
    + clear. induction (values m) as [|a l IHl]; simpl; congruence.
    + intros x Hx. apply negb_true_iff. apply edgeEqb_neq. intros ->.
      apply Hnot. apply has_In. rewrite (has_values m i j Hrest).
      apply memEdge_In. exact Hx.
  - f_equal. apply IH; assumption.
Qed.

Lemma values_set_new (m : StrMap.t edge) (k : string) (v : edge) :
  has k m = false -> values (set k v m) = values m ++ [v].
Proof. intros H. unfold set, values. rewrite H. rewrite map_app. reflexivity. Qed.

Lemma keyed_delete (m : StrMap.t edge) (k : string) : keyed m -> keyed (delete k m).
Proof.
  unfold keyed. induction m as [|[k' v] m IH]; intros Hk; simpl; [constructor|].
  inversion Hk; subst. destruct (String.eqb k k'); [assumption|].
  constructor; auto.
Qed.

Lemma keyed_set_new (m : StrMap.t edge) (i j : nat) :
  has (edgeKey i j) m = false -> keyed m -> keyed (set (edgeKey i j) (i, j) m).
Proof.
  intros H Hk. unfold set. unfold edge in *. rewrite H. unfold keyed. apply Forall_app. split; [exact Hk|].
  constructor; [reflexivity | constructor].
Qed.

(** One call of [addEdge], on the values of the map. *)
Lemma addEdge_values (onlyOuter : bool) (m : StrMap.t edge) (i j : nat) :
  keyed m -> wellFormed m ->
  values (addEdge onlyOuter m i j) = addEdgeValues onlyOuter (values m) (i, j)
  /\ keyed (addEdge onlyOuter m i j)
  /\ wellFormed (addEdge onlyOuter m i j).
Proof.
  intros Hk Hwf. split; [|split; [|apply addEdge_wellFormed; exact Hwf]].
  - unfold addEdge, addEdgeValues, reverseEdge. cbv zeta. cbn [fst snd]. unfold edge in *.
    rewrite !(has_values m _ _ Hk). unfold edge in *.
    destruct (memEdge (i, j) (values m) || memEdge (j, i) (values m)) eqn:E.
    + destruct (onlyOuter && memEdge (j, i) (values m)); [|reflexivity].
      apply values_delete; assumption.
    + apply values_set_new. rewrite (has_values m _ _ Hk).
      apply orb_false_iff in E. tauto.
  - unfold addEdge. cbv zeta. unfold edge in *.
    destruct (has (edgeKey i j) m || has (edgeKey j i) m) eqn:E.
    + destruct (onlyOuter && has (edgeKey j i) m); [apply keyed_delete|]; exact Hk.
    + apply keyed_set_new; [|exact Hk]. apply orb_false_iff in E. tauto.
Qed.

(** The loop, when it ends, has made the registrations of the triangles that
    pass the test, in order. *)
Lemma triangleLoop_registrations (points : list point) (alpha : float) (onlyOuter : bool)
    (triangles : list nat) :
  forall m m',
    triangleLoop points alpha onlyOuter triangles m = Returned m' ->
    m' = fold_left (fun acc e => addEdge onlyOuter acc (fst e) (snd e))
           (survivingSides points alpha triangles) m.
Proof.
  unfold survivingSides.
  induction triangles as [|a|a b|a b c rest IH] using triple_ind;
    intros m m' Hrun; simpl in Hrun; try discriminate.
  - inversion Hrun. reflexivity.
  - simpl triples. simpl filter. unfold survives at 1.
    destruct (nth_error points a) as [pa|]; [|discriminate].
    destruct (nth_error points b) as [pb|]; [|discriminate].
    destruct (nth_error points c) as [pc|]; [|discriminate].
    destruct (passes alpha pa pb pc).
    + simpl. apply IH. exact Hrun.
    + apply IH. exact Hrun.
Qed.

Lemma fold_addEdge_values (onlyOuter : bool) (sides : list edge) :
  forall m,
    keyed m -> wellFormed m ->
    values (fold_left (fun acc e => addEdge onlyOuter acc (fst e) (snd e)) sides m)
    = fold_left (addEdgeValues onlyOuter) sides (values m).
Proof.
  induction sides as [|[i j] sides IH]; intros m Hk Hwf; simpl; [reflexivity|].
  destruct (addEdge_values onlyOuter m i j Hk Hwf) as (Hv & Hk' & Hwf').
  rewrite IH by assumption. rewrite Hv. reflexivity.
Qed.

(** The loop ends without throwing on whole triples of valid indices. *)
Lemma triangleLoop_wellShaped (points : list point) (alpha : float) (onlyOuter : bool)
    (triangles : list nat) :
  wellShaped points triangles = true ->
  forall m, exists m', triangleLoop points alpha onlyOuter triangles m = Returned m'.
Proof.
  unfold wellShaped.
  induction triangles as [|a|a b|a b c rest IH] using triple_ind; intros Hw m.
  - eexists. reflexivity.
  - discriminate.
  - discriminate.
  - apply andb_true_iff in Hw. destruct Hw as [Hlen Hall].
    simpl in Hall. rewrite !andb_true_iff in Hall. destruct Hall as (Ha & Hb & Hc & Hrest).
    assert (Hlen' : (length rest mod 3 =? 0) = true).
    { replace (length (a :: b :: c :: rest)) with (length rest + 1 * 3) in Hlen
        by (simpl; lia).
      rewrite Nat.Div0.mod_add in Hlen. exact Hlen. }
    simpl.
    apply Nat.ltb_lt in Ha, Hb, Hc.
    destruct (nth_error points a) as [pa|] eqn:Ea; [|apply nth_error_None in Ea; lia].
    destruct (nth_error points b) as [pb|] eqn:Eb; [|apply nth_error_None in Eb; lia].
    destruct (nth_error points c) as [pc|] eqn:Ec; [|apply nth_error_None in Ec; lia].
    destruct (passes alpha pa pb pc); apply IH; rewrite Hlen', Hrest; reflexivity.
Qed.

(** What [alphaShape] returns on at least four points whose triangulation is
    made of whole triples of valid indices. *)
Lemma alphaShape_registrations
    (delaunay : list point -> outcome (list nat))
    (points : list point) (alpha : float) (onlyOuter : bool) (tris : list nat) :
  4 <= length points ->
  delaunay points = Returned tris ->
  wellShaped points tris = true ->
  alphaShape delaunay points alpha onlyOuter
  = Returned (fold_left (addEdgeValues onlyOuter) (survivingSides points alpha tris) []).
Proof.
  intros Hlen Hdel Hw. unfold alphaShape, tryBlock.
  apply Nat.ltb_ge in Hlen. rewrite Hlen, Hdel. simpl bind.
  destruct (triangleLoop_wellShaped points alpha onlyOuter tris Hw StrMap.empty) as [m' Hrun].
  rewrite Hrun. simpl. f_equal.
  apply triangleLoop_registrations in Hrun. subst m'.
  apply (fold_addEdge_values onlyOuter _ StrMap.empty).
  - constructor.
  - constructor.
Qed.

(** Whatever [alphaShape] returns is the registrations of some run of the
    loop, or nothing. *)
Lemma alphaShape_cases
    (delaunay : list point -> outcome (list nat))
    (points : list point) (alpha : float) (onlyOuter : bool) (es : list edge) :
  alphaShape delaunay points alpha onlyOuter = Returned es ->
  es = []
  \/ exists tris,
       delaunay points = Returned tris
       /\ es = fold_left (addEdgeValues onlyOuter) (survivingSides points alpha tris) [].
Proof.
  unfold alphaShape, tryBlock. intros H.
  destruct (length points <? 4); [inversion H; left; reflexivity|].
  destruct (delaunay points) as [tris|e] eqn:Hdel; simpl in H;
    [|inversion H; left; reflexivity].
  destruct (triangleLoop points alpha onlyOuter tris StrMap.empty) as [m'|e] eqn:Hrun;
    simpl in H; [|inversion H; left; reflexivity].
  inversion H; subst. right. exists tris. split; [reflexivity|].
  apply triangleLoop_registrations in Hrun. subst m'.
  apply (fold_addEdge_values onlyOuter _ StrMap.empty); constructor.
Qed.

End EdgeMapFacts.

(** ** components/alphaShape.ts: what the returned edges are *)

Module AlphaShapeMore.

Import EdgeMapFacts.

Lemma addEdgeValues_incl (onlyOuter : bool) (es : list edge) (e x : edge) :
  In x (addEdgeValues onlyOuter es e) -> In x es \/ x = e.
Proof.
  unfold addEdgeValues.
  destruct (memEdge e es || memEdge (reverseEdge e) es).
  - destruct (onlyOuter && memEdge (reverseEdge e) es).
    + intros H. apply filter_In in H. tauto.
    + tauto.
  - intros H. apply in_app_or in H. simpl in H. intuition.
Qed.

Lemma fold_addEdgeValues_incl (onlyOuter : bool) (sides : list edge) :
  forall es x,
    In x (fold_left (addEdgeValues onlyOuter) sides es) -> In x es \/ In x sides.
Proof.
  induction sides as [|e sides IH]; intros es x H; simpl in *; [tauto|].
  apply IH in H. destruct H as [H|H]; [|tauto].
  apply addEdgeValues_incl in H. intuition.
Qed.

(** A registration comes from a triangle that passed, whose corners are
    points. *)
Lemma survivingSides_In (points : list point) (alpha : float) (tris : list nat) (e : edge) :
  In e (survivingSides points alpha tris) ->
  exists t, In t (triples tris) /\ survives points alpha t = true /\ In e (directedSides t).
Proof.
  unfold survivingSides. intros H. apply in_flat_map in H.
  destruct H as (t & Ht & He). apply filter_In in Ht. exists t. tauto.
Qed.

Lemma survives_in_range (points : list point) (alpha : float) (t : nat * nat * nat) (e : edge) :
  survives points alpha t = true -> In e (directedSides t) ->
  fst e < length points /\ snd e < length points.
Proof.
  destruct t as [[ia ib] ic]. unfold survives. simpl.
  destruct (nth_error points ia) eqn:Ea; [|discriminate].
  destruct (nth_error points ib) eqn:Eb; [|discriminate].
  destruct (nth_error points ic) eqn:Ec; [|discriminate].
  assert (ia < length points) by (apply nth_error_Some; congruence).
  assert (ib < length points) by (apply nth_error_Some; congruence).
  assert (ic < length points) by (apply nth_error_Some; congruence).
  intros _ [<-|[<-|[<-|[]]]]; simpl; split; assumption.
Qed.

Lemma alphaShape_edges_in_range
    (delaunay : list point -> outcome (list nat))
    (points : list point) (alpha : float) (onlyOuter : bool) (es : list edge) :
  alphaShape delaunay points alpha onlyOuter = Returned es ->
  forall e, In e es -> fst e < length points /\ snd e < length points.
Proof.
  intros H e He. apply alphaShape_cases in H. destruct H as [->|(tris & _ & ->)]; [contradiction|].
  apply fold_addEdgeValues_incl in He. destruct He as [[]|He].
  apply survivingSides_In in He. destruct He as (t & _ & Hs & Hd).
  eapply survives_in_range; eassumption.
Qed.

(** Every edge [alphaShape] returns is a side, in the direction it was
    registered, of a triangle of the triangulation that passed the radius
    test, and both its endpoints are indices of [points]. *)
Theorem alphaShape_edges_are_surviving_sides
    (delaunay : list point -> outcome (list nat))
    (points : list point) (alpha : float) (onlyOuter : bool) (es : list edge) (e : edge) :
  alphaShape delaunay points alpha onlyOuter = Returned es ->
  In e es ->
  fst e < length points /\ snd e < length points
  /\ exists tris t,
       delaunay points = Returned tris
       /\ In t (triples tris)
       /\ survives points alpha t = true
       /\ In e (directedSides t).
Proof.
  intros H He.
  destruct (alphaShape_edges_in_range delaunay points alpha onlyOuter es H e He) as [H1 H2].
  split; [exact H1|]. split; [exact H2|].
  apply alphaShape_cases in H. destruct H as [->|(tris & Hdel & ->)]; [contradiction|].
  apply fold_addEdgeValues_incl in He. destruct He as [[]|He].
  apply survivingSides_In in He. destruct He as (t & Ht & Hs & Hd).
  exists tris, t. tauto.
Qed.

(** The side 1-2 of the unit square. *)
Lemma alphaShape_edges_are_surviving_sides_witness :
  fst (1, 2) < length unitSquare /\ snd (1, 2) < length unitSquare
  /\ exists tris t,
       Scenario.quadDelaunay unitSquare = Returned tris
       /\ In t (triples tris)
       /\ survives unitSquare 10 t = true
       /\ In (1, 2) (directedSides t).
Proof.
  apply (alphaShape_edges_are_surviving_sides Scenario.quadDelaunay unitSquare 10 true
           [(0, 1); (1, 2); (2, 3); (3, 0)] (1, 2)).
  - vm_compute. reflexivity.
  - simpl. tauto.
Defined.

(** *** No edge twice *)

Lemma filter_filter_and_edges (f g : edge -> bool) (l : list edge) :
  filter f (filter g l) = filter (fun x => g x && f x) l.
Proof. apply PipelineFacts.filter_filter_and. Qed.

Lemma reverseEdge_eq_self (e : edge) : reverseEdge e = e -> fst e = snd e.
Proof. destruct e as [i j]. unfold reverseEdge. simpl. intros H. inversion H. reflexivity. Qed.

Lemma addEdgeValues_oneWay (onlyOuter : bool) (es : list edge) (e : edge) :
  oneWay es -> oneWay (addEdgeValues onlyOuter es e).
Proof.
  intros [Hnd Hrev]. unfold addEdgeValues.
  destruct (memEdge e es || memEdge (reverseEdge e) es) eqn:E.
  - destruct (onlyOuter && memEdge (reverseEdge e) es); [|split; assumption].
    split.
    + apply NoDup_filter. exact Hnd.
    + intros x Hx Hne Hr. apply filter_In in Hx. apply filter_In in Hr.
      apply (Hrev x); tauto.
  - apply orb_false_iff in E. destruct E as [E1 E2].
    apply memEdge_not_In in E1. apply memEdge_not_In in E2. split.
    + apply NoDup_app_remove_l with (l := []). simpl.
      apply NoDup_Add with (a := e) (l := es).
      * clear. induction es; simpl; constructor. assumption.
      * split; assumption.
    + intros x Hx Hne Hr. apply in_app_or in Hx. apply in_app_or in Hr.
      simpl in Hx, Hr. destruct Hx as [Hx|[<-|[]]]; destruct Hr as [Hr|[Hr|[]]].
      * apply (Hrev x); assumption.
      * apply E2. rewrite Hr. rewrite reverseEdge_involutive. exact Hx.
      * contradiction.
      * apply Hne. apply reverseEdge_eq_self. symmetry. exact Hr.
Qed.

Lemma fold_addEdgeValues_oneWay (onlyOuter : bool) (sides : list edge) :
  forall es, oneWay es -> oneWay (fold_left (addEdgeValues onlyOuter) sides es).
Proof.
  induction sides as [|e sides IH]; intros es H; simpl; [exact H|].
  apply IH. apply addEdgeValues_oneWay. exact H.
Qed.

(** In either mode the list [alphaShape] returns holds no edge twice, and
    never an edge together with its reverse. *)
Theorem alphaShape_no_edge_twice
    (delaunay : list point -> outcome (list nat))
    (points : list point) (alpha : float) (onlyOuter : bool) (es : list edge) :
  alphaShape delaunay points alpha onlyOuter = Returned es ->
  NoDup es
  /\ forall i j, In (i, j) es -> i <> j -> ~ In (j, i) es.
Proof.
  intros H. apply alphaShape_cases in H.
  assert (Hone : oneWay es).
  { destruct H as [->|(tris & _ & ->)].
    - split; [constructor | intros e []].
    - apply fold_addEdgeValues_oneWay. split; [constructor | intros e []]. }
  destruct Hone as [Hnd Hrev]. split; [exact Hnd|].
  intros i j Hin Hne. exact (Hrev (i, j) Hin Hne).
Qed.

(** The unit square without the outer-only mode. *)
Lemma alphaShape_no_edge_twice_witness :
  NoDup [(0, 1); (1, 2); (2, 0); (2, 3); (3, 0)]
  /\ forall i j, In (i, j) [(0, 1); (1, 2); (2, 0); (2, 3); (3, 0)] -> i <> j ->
                 ~ In (j, i) [(0, 1); (1, 2); (2, 0); (2, 3); (3, 0)].
Proof.
  apply (alphaShape_no_edge_twice Scenario.quadDelaunay unitSquare 10 false).
  vm_compute. reflexivity.
Defined.

(** *** The outer-only mode *)

Lemma noRepeat_NoDup (es : list edge) : noRepeat es = true -> NoDup es.
Proof.
  induction es as [|e es IH]; simpl; intros H; [constructor|].
  apply andb_true_iff in H. destruct H as [H1 H2]. apply negb_true_iff in H1.
  constructor; [apply memEdge_not_In; exact H1 | apply IH; exact H2].
Qed.

Lemma noLoop_In (es : list edge) (e : edge) : noLoop es = true -> In e es -> fst e <> snd e.
Proof.
  unfold noLoop. rewrite forallb_forall. intros H Hin. specialize (H e Hin).
  apply negb_true_iff in H. apply Nat.eqb_neq in H. exact H.
Qed.

Lemma reverseEdge_swap (x e : edge) : reverseEdge x = e <-> x = reverseEdge e.
Proof.
  split; intros H.
  - rewrite <- H. symmetry. apply reverseEdge_involutive.
  - rewrite H. apply reverseEdge_involutive.
Qed.

(** With registrations that never repeat, the outer-only mode leaves the
    registrations whose reverse was never made, in their order. *)
Lemma fold_addEdgeValues_outer (sides : list edge) :
  NoDup sides -> (forall e, In e sides -> fst e <> snd e) ->
  fold_left (addEdgeValues true) sides [] = boundarySides sides.
Proof.
  unfold boundarySides.
  induction sides as [|e sides IH] using rev_ind; intros Hnd Hloop; [reflexivity|].
  rewrite fold_left_app. simpl.
  assert (Hnd' : NoDup sides) by (apply NoDup_app_remove_r in Hnd; exact Hnd).
  assert (He : ~ In e sides).
  { intros Hin. apply NoDup_remove_2 in Hnd. rewrite app_nil_r in Hnd. contradiction. }
  assert (Hne : reverseEdge e <> e).
  { intros Heq. apply reverseEdge_eq_self in Heq. revert Heq. apply Hloop.
    apply in_or_app. right. left. reflexivity. }
  rewrite IH; [|exact Hnd'|intros x Hx; apply Hloop; apply in_or_app; left; exact Hx].
  rewrite filter_app. simpl.
  unfold addEdgeValues.
  set (V := filter (fun x => negb (memEdge (reverseEdge x) sides)) sides).
  assert (HeV : memEdge e V = false).
  { apply memEdge_not_In. intros Hin. apply filter_In in Hin. tauto. }
  rewrite HeV. simpl orb.
  destruct (memEdge (reverseEdge e) sides) eqn:Erev.
  - (* the reverse was registered before: it is removed, [e] is not added *)
    assert (HrV : memEdge (reverseEdge e) V = true).
    { apply memEdge_In. apply filter_In. split; [apply memEdge_In; exact Erev|].
      rewrite reverseEdge_involutive. apply negb_true_iff. apply memEdge_not_In. exact He. }
    rewrite HrV. simpl andb. cbv iota.
    assert (Hlast : memEdge (reverseEdge e) (sides ++ [e]) = true).
    { apply memEdge_In. apply in_or_app. left. apply memEdge_In. exact Erev. }
    rewrite Hlast. simpl. rewrite app_nil_r.
    subst V. rewrite filter_filter_and_edges. apply filter_ext_in. intros x Hx.
    unfold memEdge at 2. rewrite existsb_app. simpl. rewrite orb_false_r.
    fold (memEdge (reverseEdge x) sides). rewrite negb_orb. f_equal.
    f_equal. destruct (edgeEqb x (reverseEdge e)) eqn:E1, (edgeEqb (reverseEdge x) e) eqn:E2;
      try reflexivity.
    + apply edgeEqb_eq in E1. apply edgeEqb_neq in E2. exfalso. apply E2.
      apply reverseEdge_swap. exact E1.
    + apply edgeEqb_eq in E2. apply edgeEqb_neq in E1. exfalso. apply E1.
      apply reverseEdge_swap. exact E2.
  - (* the reverse was never registered: [e] is added at the end *)
    assert (HrV : memEdge (reverseEdge e) V = false).
    { apply memEdge_not_In. intros Hin. apply filter_In in Hin.
      destruct Hin as [Hin _]. apply memEdge_In in Hin. congruence. }
    rewrite HrV. cbv iota.
    assert (Hlast : memEdge (reverseEdge e) (sides ++ [e]) = false).
    { apply memEdge_not_In. intros Hin. apply in_app_or in Hin. destruct Hin as [Hin|[Hin|[]]].
      - apply memEdge_In in Hin. congruence.
      - apply Hne. symmetry. exact Hin. }
    rewrite Hlast. simpl. f_equal.
    subst V. apply filter_ext_in. intros x Hx.
    unfold memEdge at 2. rewrite existsb_app. simpl. rewrite orb_false_r.
    fold (memEdge (reverseEdge x) sides).
    assert (Hx' : edgeEqb (reverseEdge x) e = false).
    { apply edgeEqb_neq. intros Heq. apply reverseEdge_swap in Heq. subst x.
      apply memEdge_not_In in Erev. contradiction. }
    rewrite Hx'. rewrite orb_false_r. reflexivity.
Qed.

(** On at least four points, with a triangulation of whole triples of valid
    indices in which no directed side occurs twice among the triangles that
    pass the radius test (as when all triangles turn the same way), and
    outer-only mode, [alphaShape] returns exactly the sides whose reverse is
    the side of no passing triangle, in the order of their registration: the
    sides that border one passing triangle only. *)
Theorem alphaShape_outer_boundary
    (delaunay : list point -> outcome (list nat))
    (points : list point) (alpha : float) (tris : list nat) :
  4 <= length points ->
  delaunay points = Returned tris ->
  wellShaped points tris = true ->
  noRepeat (survivingSides points alpha tris) = true ->
  noLoop (survivingSides points alpha tris) = true ->
  alphaShape delaunay points alpha true
  = Returned (boundarySides (survivingSides points alpha tris))
  /\ forall e,
       In e (boundarySides (survivingSides points alpha tris)) <->
       In e (survivingSides points alpha tris)
       /\ ~ In (reverseEdge e) (survivingSides points alpha tris).
Proof.
  intros Hlen Hdel Hw Hrep Hloop. split.
  - rewrite (alphaShape_registrations delaunay points alpha true tris Hlen Hdel Hw).
    f_equal. apply fold_addEdgeValues_outer.
    + apply noRepeat_NoDup. exact Hrep.
    + intros e He. exact (noLoop_In _ e Hloop He).
  - intros e. unfold boundarySides. rewrite filter_In, negb_true_iff, memEdge_not_In.
    tauto.
Qed.

(** The unit square split along the diagonal 0-2. *)
Lemma alphaShape_outer_boundary_witness :
  alphaShape Scenario.quadDelaunay unitSquare 10 true
  = Returned (boundarySides (survivingSides unitSquare 10 [0; 1; 2; 0; 2; 3]))
  /\ forall e,
       In e (boundarySides (survivingSides unitSquare 10 [0; 1; 2; 0; 2; 3])) <->
       In e (survivingSides unitSquare 10 [0; 1; 2; 0; 2; 3])
       /\ ~ In (reverseEdge e) (survivingSides unitSquare 10 [0; 1; 2; 0; 2; 3]).
Proof.
  apply (alphaShape_outer_boundary Scenario.quadDelaunay unitSquare 10 [0; 1; 2; 0; 2; 3]).
  - simpl. lia.
  - reflexivity.
  - vm_compute. reflexivity.
  - vm_compute. reflexivity.
  - vm_compute. reflexivity.
Defined.

(** *** Without the outer-only mode *)

Lemma addEdgeValues_all_keeps (es : list edge) (e x : edge) :
  In x es -> In x (addEdgeValues false es e).
Proof.
  intros H. unfold addEdgeValues. simpl andb. cbv iota.
  destruct (memEdge e es || memEdge (reverseEdge e) es); [exact H|].
  apply in_or_app. left. exact H.
Qed.

Lemma addEdgeValues_all_adds (es : list edge) (e : edge) :
  In e (addEdgeValues false es e) \/ In (reverseEdge e) (addEdgeValues false es e).
Proof.
  unfold addEdgeValues. simpl andb. cbv iota.
  destruct (memEdge e es) eqn:E1; simpl orb.
  - left. apply memEdge_In. exact E1.
  - destruct (memEdge (reverseEdge e) es) eqn:E2.
    + right. apply memEdge_In. exact E2.
    + left. apply in_or_app. right. left. reflexivity.
Qed.

Lemma fold_addEdgeValues_all_keeps (sides : list edge) :
  forall es x, In x es -> In x (fold_left (addEdgeValues false) sides es).
Proof.
  induction sides as [|e sides IH]; intros es x H; simpl; [exact H|].
  apply IH. apply addEdgeValues_all_keeps. exact H.
Qed.

Lemma fold_addEdgeValues_all (sides : list edge) :
  forall es e,
    In e sides ->
    In e (fold_left (addEdgeValues false) sides es)
    \/ In (reverseEdge e) (fold_left (addEdgeValues false) sides es).
Proof.
  induction sides as [|s sides IH]; intros es e H; simpl in *; [contradiction|].
  destruct H as [->|H]; [|apply IH; exact H].
  destruct (addEdgeValues_all_adds es e) as [Ha|Ha];
    [left|right]; apply fold_addEdgeValues_all_keeps; exact Ha.
Qed.

(** On at least four points, with a triangulation of whole triples of valid
    indices and without the outer-only mode, [alphaShape] keeps every side of
    every triangle that passes the radius test, in one direction or the
    other: nothing is cancelled. *)
Theorem alphaShape_all_keeps_every_side
    (delaunay : list point -> outcome (list nat))
    (points : list point) (alpha : float) (tris : list nat) :
  4 <= length points ->
  delaunay points = Returned tris ->
  wellShaped points tris = true ->
  exists es,
    alphaShape delaunay points alpha false = Returned es
    /\ forall t e,
         In t (triples tris) -> survives points alpha t = true -> In e (directedSides t) ->
         In e es \/ In (reverseEdge e) es.
Proof.
  intros Hlen Hdel Hw. eexists. split.
  - apply (alphaShape_registrations delaunay points alpha false tris Hlen Hdel Hw).
  - intros t e Ht Hs He. apply fold_addEdgeValues_all.
    unfold survivingSides. apply in_flat_map. exists t. split; [|exact He].
    apply filter_In. split; assumption.
Qed.

(** The unit square split along the diagonal 0-2. *)
Lemma alphaShape_all_keeps_every_side_witness :
  exists es,
    alphaShape Scenario.quadDelaunay unitSquare 10 false = Returned es
    /\ forall t e,
         In t (triples [0; 1; 2; 0; 2; 3]) -> survives unitSquare 10 t = true ->
         In e (directedSides t) ->
         In e es \/ In (reverseEdge e) es.
Proof.
  apply (alphaShape_all_keeps_every_side Scenario.quadDelaunay unitSquare 10 [0; 1; 2; 0; 2; 3]).
  - simpl. lia.
  - reflexivity.
  - vm_compute. reflexivity.
Defined.

End AlphaShapeMore.

(** ** components/clustering.ts: the distinct cluster ids and their records *)

Module ClusterFacts.

Import PipelineFacts.

Lemma firstAppearances_In (cl : list Z) (x : Z) :
  In x (firstAppearances cl) <-> In x cl.
Proof.
  induction cl as [|y cl IH]; simpl; [tauto|].
  rewrite filter_In, IH, negb_true_iff, Z.eqb_neq.
  destruct (Z.eq_dec x y) as [->|Hne]; intuition congruence.
Qed.

Lemma firstAppearances_NoDup (cl : list Z) : NoDup (firstAppearances cl).
Proof.
  induction cl as [|y cl IH]; simpl; constructor.
  - intros H. apply filter_In in H. destruct H as [_ H].
    rewrite Z.eqb_refl in H. discriminate.
  - apply NoDup_filter. exact IH.
Qed.

Lemma uniqueClusters_NoDup (cl : list Z) : NoDup (uniqueClusters cl).
Proof. rewrite uniqueClusters_firstAppearances. apply firstAppearances_NoDup. Qed.

Lemma uniqueClusters_In (cl : list Z) (c : Z) : In c (uniqueClusters cl) <-> In c cl.
Proof. rewrite uniqueClusters_firstAppearances. apply firstAppearances_In. Qed.

(** Each id of the primary assignment is processed, and processed once: the
    ids the loop visits are the ids that occur in the assignment, without
    repeats. *)
Theorem uniqueClusters_each_id_once (cl : list Z) :
  NoDup (uniqueClusters cl)
  /\ (forall c, In c (uniqueClusters cl) <-> In c cl)
  /\ length (uniqueClusters cl) <= length cl.
Proof.
  split; [apply uniqueClusters_NoDup|]. split; [apply uniqueClusters_In|].
  rewrite uniqueClusters_firstAppearances.
  induction cl as [|y cl IH]; simpl; [lia|].
  pose proof (filter_length_le (fun y0 : Z => negb (y0 =? y)%Z) (firstAppearances cl)).
  lia.
Qed.

(** The records of a cluster are the records paired with its id, position by
    position. *)
Lemma filterFrom_combine (data : list DataRow) (cl : list Z) (c : Z) :
  forall idx,
    filterFrom (fun _ i => inCluster cl c i) idx data
    = map fst (filter (fun p => Z.eqb (snd p) c) (combine data (skipn idx cl))).
Proof.
  induction data as [|row data IH]; intros idx; simpl; [reflexivity|].
  unfold inCluster at 1.
  destruct (nth_error cl idx) as [x|] eqn:En.
  - assert (Hlt : idx < length cl) by (apply nth_error_Some; congruence).
    apply Nat.ltb_lt in Hlt. rewrite Hlt. simpl andb.
    assert (Hskip : skipn idx cl = x :: skipn (S idx) cl).
    { clear -En. revert idx En. induction cl as [|y cl IHcl]; intros [|idx] En;
        simpl in *; try discriminate.
      - inversion En. reflexivity.
      - apply IHcl. exact En. }
    rewrite Hskip. simpl. destruct (Z.eqb x c); simpl; rewrite IH; reflexivity.
  - rewrite andb_false_r.
    assert (Hskip : forall k, idx <= k -> skipn k cl = []).
    { intros k Hk. apply skipn_all2. apply nth_error_None in En. lia. }
    rewrite (Hskip idx) by lia. rewrite IH. rewrite (Hskip (S idx)) by lia.
    destruct data; reflexivity.
Qed.

Lemma clusterRows_combine (data : list DataRow) (cl : list Z) (c : Z) :
  clusterRows data cl c = map fst (filter (fun p => Z.eqb (snd p) c) (combine data cl)).
Proof. unfold clusterRows. rewrite filterFrom_combine. reflexivity. Qed.

(** Grouping a list by the distinct values of a key loses and repeats
    nothing. *)
Lemma group_by_key_Permutation {A : Type} (l : list (A * Z)) :
  forall ids,
    NoDup ids -> (forall p, In p l -> In (snd p) ids) ->
    Permutation (flat_map (fun c => filter (fun p => Z.eqb (snd p) c) l) ids) l.
Proof.
  induction l as [|p l IH]; intros ids Hnd Hcov.
  - replace (flat_map (fun c => filter (fun p : A * Z => Z.eqb (snd p) c) []) ids)
      with (@nil (A * Z)); [constructor|].
    clear. induction ids; simpl; auto.
  - assert (Hin : In (snd p) ids) by (apply Hcov; left; reflexivity).
    apply in_split in Hin. destruct Hin as (i1 & i2 & ->).
    assert (Hn1 : ~ In (snd p) i1 /\ ~ In (snd p) i2).
    { apply NoDup_remove_2 in Hnd. split; intros H; apply Hnd; apply in_or_app; tauto. }
    assert (Hother : forall js, ~ In (snd p) js ->
              flat_map (fun c => filter (fun q => Z.eqb (snd q) c) (p :: l)) js
              = flat_map (fun c => filter (fun q => Z.eqb (snd q) c) l) js).
    { intros js Hjs. induction js as [|c js IHjs]; [reflexivity|].
      cbn [flat_map]. rewrite IHjs by (intros H; apply Hjs; right; exact H).
      f_equal. cbn [filter].
      destruct (Z.eqb (snd p) c) eqn:E; [|reflexivity].
      apply Z.eqb_eq in E. exfalso. apply Hjs. left. symmetry. exact E. }
    assert (Hcons : forall (F : Z -> list (A * Z)) a r,
              flat_map F (a :: r) = F a ++ flat_map F r) by reflexivity.
    rewrite flat_map_app, Hcons.
    rewrite (Hother i1) by tauto. rewrite (Hother i2) by tauto.
    cbn beta. cbn [filter]. rewrite Z.eqb_refl.
    rewrite <- app_comm_cons.
    eapply Permutation_trans; [apply Permutation_sym; apply Permutation_middle|].
    constructor.
    specialize (IH (i1 ++ snd p :: i2) Hnd).
    rewrite flat_map_app, Hcons in IH. apply IH.
    intros q Hq. apply Hcov. right. exact Hq.
Qed.

Lemma map_fst_combine (data : list DataRow) (cl : list Z) :
  map fst (combine data cl) = firstn (length cl) data.
Proof.
  revert cl. induction data as [|row data IH]; intros [|x cl]; simpl; try reflexivity.
  - f_equal. apply IH.
Qed.

Lemma clusterRows_In (data : list DataRow) (cl : list Z) (c : Z) (row : DataRow) :
  In row (clusterRows data cl c) <->
  exists idx, nth_error data idx = Some row /\ nth_error cl idx = Some c.
Proof.
  rewrite clusterRows_combine. rewrite in_map_iff. split.
  - intros ([r x] & Hfst & Hin). simpl in Hfst. subst r.
    apply filter_In in Hin. destruct Hin as [Hin Hx]. simpl in Hx.
    apply Z.eqb_eq in Hx. subst x.
    apply In_nth_error in Hin. destruct Hin as [idx Hidx]. exists idx.
    clear -Hidx. revert cl idx Hidx.
    induction data as [|r data IH]; intros [|x cl] [|idx] H; simpl in *; try discriminate.
    + inversion H. split; reflexivity.
    + apply IH. exact H.
  - intros (idx & Hd & Hc). exists (row, c). split; [reflexivity|].
    apply filter_In. split; [|simpl; apply Z.eqb_refl].
    clear -Hd Hc. revert cl idx Hd Hc.
    induction data as [|r data IH]; intros [|x cl] [|idx] Hd Hc; simpl in *;
      try discriminate.
    + inversion Hd; inversion Hc. left. reflexivity.
    + right. eapply IH; eassumption.
Qed.

Lemma clusterRows_Permutation (data : list DataRow) (cl : list Z) :
  Permutation (flat_map (clusterRows data cl) (uniqueClusters cl))
              (firstn (length cl) data).
Proof.
  rewrite <- map_fst_combine.
  rewrite (flat_map_ext _ (fun c => map fst (filter (fun p => Z.eqb (snd p) c) (combine data cl))))
    by (intros c; apply clusterRows_combine).
  replace (flat_map
             (fun c => map fst (filter (fun p => Z.eqb (snd p) c) (combine data cl)))
             (uniqueClusters cl))
    with (map fst
            (flat_map (fun c => filter (fun p => Z.eqb (snd p) c) (combine data cl))
               (uniqueClusters cl)))
    by (clear; induction (uniqueClusters cl) as [|c ids IH]; simpl;
        [reflexivity | rewrite map_app, IH; reflexivity]).
  apply Permutation_map. apply group_by_key_Permutation.
  - apply uniqueClusters_NoDup.
  - intros [r x] Hin. simpl. apply uniqueClusters_In.
    apply in_combine_r in Hin. exact Hin.
Qed.

(** The rows of the clusters, taken over the distinct ids, are the records
    at the positions the primary assignment covers, each record once: no
    record is lost, none is in two clusters; a record belongs to cluster [c]
    exactly when the assignment has [c] at the record's position; and an id
    that is not in the assignment has no record. *)
Theorem clusterRows_partition (data : list DataRow) (cl : list Z) :
  Permutation (flat_map (clusterRows data cl) (uniqueClusters cl))
              (firstn (length cl) data)
  /\ (forall c row,
        In row (clusterRows data cl c) <->
        exists idx, nth_error data idx = Some row /\ nth_error cl idx = Some c)
  /\ (forall c, ~ In c cl -> clusterRows data cl c = []).
Proof.
  split; [apply clusterRows_Permutation|]. split; [apply clusterRows_In|].
  intros c Hc. destruct (clusterRows data cl c) as [|row rest] eqn:E; [reflexivity|].
  exfalso. assert (Hin : In row (clusterRows data cl c)) by (rewrite E; left; reflexivity).
  apply clusterRows_In in Hin. destruct Hin as (idx & _ & Hidx). apply Hc.
  eapply nth_error_In. exact Hidx.
Qed.

End ClusterFacts.

(** ** components/clustering.ts: what a run of [analyze] does and does not *)

Module AnalyzeFacts.

Import Scenario AssemblyFacts PipelineFacts CountFacts ClusterFacts AlphaShapeMore.

Lemma segmentsOf_in_range (centers : list point) (edges : list edge) :
  (forall e, In e edges -> fst e < length centers /\ snd e < length centers) ->
  segmentsOf centers edges
  = {| longs := map (lonPairOf centers) edges; lats := map (latPairOf centers) edges |}.
Proof.
  induction edges as [|[j k] edges IH]; intros Hall; [reflexivity|].
  change ((j, k) :: edges) with ([(j, k)] ++ edges). rewrite segmentsOf_app.
  rewrite IH by (intros e He; apply Hall; right; exact He).
  destruct (Hall (j, k) (or_introl eq_refl)) as [Hj Hk]. simpl in Hj, Hk.
  unfold segmentsOf. cbn [fold_left]. unfold pushEdge.
  apply Nat.ltb_lt in Hj, Hk. rewrite Hj, Hk. reflexivity.
Qed.

Lemma processCluster_Some
    (kmeans : list point -> Z -> outcome (option KMeansResult))
    (delaunay : list point -> outcome (list nat)) (floorPow : nat -> Z)
    (data : list DataRow) (cl : list Z) (c : Z) (centers : list point) (edges : list edge) :
  processCluster kmeans delaunay floorPow data cl c = Returned (Some (centers, edges)) ->
  exists r cs,
    kmeans (clusterPoints data cl c)
           (subClusterCount floorPow (length (clusterPoints data cl c)))
    = Returned (Some r)
    /\ centroids r = Some cs /\ centers = map unwrap cs
    /\ 4 <= length (clusterPoints data cl c)
    /\ 4 <= length centers
    /\ alphaShape delaunay centers 1 true = Returned edges
    /\ 0 < length edges.
Proof.
  unfold processCluster, secondaryArgs.
  destruct (length (clusterPoints data cl c) <? 4) eqn:E4; [discriminate|].
  destruct (kmeans _ _) as [[r|]|e] eqn:Ek; simpl; try discriminate.
  destruct (centroids r) as [cs|] eqn:Ec; [|discriminate].
  destruct (length (map unwrap cs) <? 4) eqn:E4'; [discriminate|].
  destruct (alphaShape delaunay (map unwrap cs) 1 true) as [es|e] eqn:Ea; [|discriminate].
  destruct (0 <? length es) eqn:E0; [|discriminate].
  intros H. inversion H; subst.
  apply Nat.ltb_ge in E4, E4'. apply Nat.ltb_lt in E0.
  exists r, cs. repeat split; assumption.
Qed.

(** A cluster that reaches the output has at least four centroids and at
    least one edge, every edge joins two of its centroids, and the cluster
    contributes exactly one segment for each edge, in the order of the edges:
    the bounds test of the assembly never drops an edge in a run of
    [analyze]. *)
Theorem processed_cluster_one_segment_per_edge
    (kmeans : list point -> Z -> outcome (option KMeansResult))
    (delaunay : list point -> outcome (list nat)) (floorPow : nat -> Z)
    (data : list DataRow) (cl : list Z) (c : Z) (centers : list point) (edges : list edge) :
  processCluster kmeans delaunay floorPow data cl c = Returned (Some (centers, edges)) ->
  4 <= length centers
  /\ 0 < length edges
  /\ (forall e, In e edges -> fst e < length centers /\ snd e < length centers)
  /\ longs (clusterOutput kmeans delaunay floorPow data cl c) = map (lonPairOf centers) edges
  /\ lats (clusterOutput kmeans delaunay floorPow data cl c) = map (latPairOf centers) edges.
Proof.
  intros H. pose proof (processCluster_Some _ _ _ _ _ _ _ _ H)
    as (r & cs & _ & _ & _ & _ & H4 & Ha & H0).
  assert (Hr : forall e, In e edges -> fst e < length centers /\ snd e < length centers).
  { intros e He. exact (alphaShape_edges_in_range delaunay centers 1 true edges Ha e He). }
  unfold clusterOutput. rewrite H. rewrite (segmentsOf_in_range centers edges Hr).
  repeat split; auto; apply Hr; assumption.
Qed.

(** The district, one cluster of 256 records. *)
Lemma processed_cluster_one_segment_per_edge_witness :
  4 <= length [(1, 5); (2, 5); (2, 6); (1, 6)]%float
  /\ 0 < length [(0, 1); (1, 2); (2, 3); (3, 0)]
  /\ (forall e, In e [(0, 1); (1, 2); (2, 3); (3, 0)] ->
        fst e < length [(1, 5); (2, 5); (2, 6); (1, 6)]%float
        /\ snd e < length [(1, 5); (2, 5); (2, 6); (1, 6)]%float)
  /\ longs (clusterOutput (kmeansOnce [0; 1; 2; 3]) quadDelaunay exactFloorPowQuarter
              district (repeat 0%Z 256) 0)
     = map (lonPairOf [(1, 5); (2, 5); (2, 6); (1, 6)]%float) [(0, 1); (1, 2); (2, 3); (3, 0)]
  /\ lats (clusterOutput (kmeansOnce [0; 1; 2; 3]) quadDelaunay exactFloorPowQuarter
             district (repeat 0%Z 256) 0)
     = map (latPairOf [(1, 5); (2, 5); (2, 6); (1, 6)]%float) [(0, 1); (1, 2); (2, 3); (3, 0)].
Proof.
  apply (processed_cluster_one_segment_per_edge
           (kmeansOnce [0; 1; 2; 3]) quadDelaunay exactFloorPowQuarter
           district (repeat 0%Z 256) 0).
  vm_compute. reflexivity.
Defined.

(** *** Small clusters *)

Lemma isFloorRoot4_below_256 (m : nat) (r : Z) :
  isFloorRoot4 m r -> m < 256 -> (r < 4)%Z.
Proof.
  intros (H0 & Hlo & _) Hm.
  destruct (Z_lt_le_dec r 4) as [Hlt|Hge]; [exact Hlt|].
  assert (4 ^ 4 <= r ^ 4)%Z by (apply Z.pow_le_mono_l; lia).
  change (4 ^ 4)%Z with 256%Z in *. lia.
Qed.

Lemma processCluster_small
    (kmeans : list point -> Z -> outcome (option KMeansResult))
    (delaunay : list point -> outcome (list nat)) (floorPow : nat -> Z)
    (data : list DataRow) (cl : list Z) (c : Z) (ce : list point * list edge) :
  atMostKCentroids kmeans ->
  isFloorRoot4 (length (clusterPoints data cl c))
               (floorPow (length (clusterPoints data cl c))) ->
  length (clusterPoints data cl c) < 256 ->
  processCluster kmeans delaunay floorPow data cl c <> Returned (Some ce).
Proof.
  intros Hk Hroot Hsmall H. destruct ce as [centers edges].
  apply processCluster_Some in H.
  destruct H as (r & cs & Hrun & Hcs & -> & _ & H4 & _).
  rewrite length_map in H4.
  pose proof (isFloorRoot4_below_256 _ _ Hroot Hsmall) as Hlt.
  pose proof (subClusterCount_max floorPow (length (clusterPoints data cl c))) as Hmax.
  assert (Hone : (1 <= subClusterCount floorPow (length (clusterPoints data cl c)))%Z) by lia.
  pose proof (Hk _ _ _ _ Hone Hrun Hcs). lia.
Qed.

Lemma small_cluster_empty
    (kmeans : list point -> Z -> outcome (option KMeansResult))
    (delaunay : list point -> outcome (list nat)) (floorPow : nat -> Z)
    (data : list DataRow) (cl : list Z) (c : Z) :
  atMostKCentroids kmeans ->
  (forall m, isFloorRoot4 m (floorPow m)) ->
  length (clusterPoints data cl c) < 256 ->
  clusterOutput kmeans delaunay floorPow data cl c = emptyOutput.
Proof.
  intros Hk Hroot Hsmall. unfold clusterOutput.
  destruct (processCluster kmeans delaunay floorPow data cl c) as [[[centers edges]|]|e] eqn:E;
    try reflexivity.
  exfalso. revert E. apply processCluster_small; auto.
Qed.

(** A primary cluster of fewer than 256 records never reaches the output,
    when the clustering library hands back at most the k centroids it is
    asked for and [Math.floor(Math.pow(m, 0.25))] is the floor of the fourth
    root: fewer than 256 points give fewer than four secondary centroids. *)
Theorem small_cluster_contributes_nothing
    (kmeans : list point -> Z -> outcome (option KMeansResult))
    (delaunay : list point -> outcome (list nat)) (floorPow : nat -> Z)
    (data : list DataRow) (cl : list Z) (c : Z) :
  atMostKCentroids kmeans ->
  isFloorRoot4 (length (clusterPoints data cl c))
               (floorPow (length (clusterPoints data cl c))) ->
  length (clusterPoints data cl c) < 256 ->
  clusterOutput kmeans delaunay floorPow data cl c = emptyOutput
  /\ forall ce, processCluster kmeans delaunay floorPow data cl c <> Returned (Some ce).
Proof.
  intros Hk Hroot Hsmall.
  assert (Hno : forall ce,
            processCluster kmeans delaunay floorPow data cl c <> Returned (Some ce)).
  { intros ce. apply processCluster_small; assumption. }
  split; [|exact Hno]. unfold clusterOutput.
  destruct (processCluster kmeans delaunay floorPow data cl c) as [[[centers edges]|]|e];
    try reflexivity.
  exfalso. apply (Hno (centers, edges)). reflexivity.
Qed.

Lemma kmeansOnce_atMostK (init : list nat) : atMostKCentroids (kmeansOnce init).
Proof.
  intros pts k r cs Hk Hrun Hcs. unfold kmeansOnce in Hrun. inversion Hrun; subst r.
  simpl in Hcs. inversion Hcs; subst cs. rewrite !length_map.
  pose proof (firstn_le_length (Z.to_nat k) init).
  assert (length (firstn (Z.to_nat k) init) <= Z.to_nat k).
  { rewrite length_firstn. lia. }
  lia.
Qed.

(** The misaligned records, one cluster of five rows. *)
Lemma small_cluster_contributes_nothing_witness :
  clusterOutput (kmeansOnce [0; 1; 2; 3]) quadDelaunay exactFloorPowQuarter
    misaligned [0; 0; 0; 0]%Z 0 = emptyOutput
  /\ forall ce,
       processCluster (kmeansOnce [0; 1; 2; 3]) quadDelaunay exactFloorPowQuarter
         misaligned [0; 0; 0; 0]%Z 0 <> Returned (Some ce).
Proof.
  apply (small_cluster_contributes_nothing
           (kmeansOnce [0; 1; 2; 3]) quadDelaunay exactFloorPowQuarter
           misaligned [0; 0; 0; 0]%Z 0).
  - apply kmeansOnce_atMostK.
  - apply exactFloorPowQuarter_spec.
  - simpl. lia.
Defined.

Lemma filterFrom_length {A : Type} (f : A -> nat -> bool) (l : list A) :
  forall idx, length (filterFrom f idx l) <= length l.
Proof.
  induction l as [|x l IH]; intros idx; simpl; [lia|].
  specialize (IH (S idx)). destruct (f x idx); simpl; lia.
Qed.

Lemma clusterPoints_length (data : list DataRow) (cl : list Z) (c : Z) :
  length (clusterPoints data cl c) <= length data.
Proof.
  unfold clusterPoints, clusterRows. rewrite length_map. apply filterFrom_length.
Qed.

Lemma mergeOutputs_all_empty (outs : list Output) :
  Forall (fun o => o = emptyOutput) outs -> mergeOutputs outs = emptyOutput.
Proof.
  induction 1 as [|o outs Ho _ IH]; simpl; [reflexivity|].
  rewrite Ho, IH. reflexivity.
Qed.

(** With fewer than 256 records [analyze] draws nothing: whenever it returns,
    [longs] and [lats] are empty (the clustering library handing back at most
    the k centroids it is asked for, and [Math.floor(Math.pow(m, 0.25))]
    being the floor of the fourth root). *)
Theorem analyze_empty_below_256_records
    (kmeans : list point -> Z -> outcome (option KMeansResult))
    (delaunay : list point -> outcome (list nat)) (floorPow : nat -> Z)
    (data : list DataRow) (nCluster : Z) (out : Output) :
  atMostKCentroids kmeans ->
  (forall m, isFloorRoot4 m (floorPow m)) ->
  length data < 256 ->
  analyze kmeans delaunay floorPow data nCluster = Returned out ->
  out = {| longs := []; lats := [] |}.
Proof.
  intros Hk Hroot Hsmall Hrun. unfold analyze in Hrun.
  destruct (primaryClustering kmeans data nCluster) as [[cl|]|e]; simpl in Hrun;
    [| |discriminate].
  - apply boundaries_Returned in Hrun. destruct Hrun as [-> _].
    apply mergeOutputs_all_empty. apply Forall_forall. intros o Ho.
    apply in_map_iff in Ho. destruct Ho as (c & <- & _).
    apply small_cluster_empty; auto.
    pose proof (clusterPoints_length data cl c). lia.
  - inversion Hrun. reflexivity.
Qed.

(** Five records, one cluster requested. *)
Lemma analyze_empty_below_256_records_witness :
  {| longs := []; lats := [] |} = {| longs := []; lats := [] |}.
Proof.
  apply (analyze_empty_below_256_records
           (kmeansOnce [0; 1; 2; 3]) quadDelaunay exactFloorPowQuarter misaligned 1).
  - apply kmeansOnce_atMostK.
  - apply exactFloorPowQuarter_spec.
  - simpl. lia.
  - vm_compute. reflexivity.
Defined.

(** *** Failures *)

Lemma processCluster_returns
    (kmeans : list point -> Z -> outcome (option KMeansResult))
    (delaunay : list point -> outcome (list nat)) (floorPow : nat -> Z)
    (data : list DataRow) (cl : list Z) (c : Z) :
  neverThrows kmeans ->
  exists pushed, processCluster kmeans delaunay floorPow data cl c = Returned pushed.
Proof.
  intros Hk. unfold processCluster.
  destruct (secondaryArgs floorPow data cl c) as [[pts k]|]; [|eexists; reflexivity].
  destruct (Hk pts k) as [[r|] Hr]; rewrite Hr; simpl; [|eexists; reflexivity].
  destruct (centroids r) as [cs|]; [|eexists; reflexivity].
  destruct (length (map unwrap cs) <? 4); [eexists; reflexivity|].
  destruct (alphaShape delaunay (map unwrap cs) 1 true) as [es|e]; [|eexists; reflexivity].
  destruct (0 <? length es); eexists; reflexivity.
Qed.

Lemma clusterLoop_returns
    (kmeans : list point -> Z -> outcome (option KMeansResult))
    (delaunay : list point -> outcome (list nat)) (floorPow : nat -> Z)
    (data : list DataRow) (cl ids : list Z) :
  neverThrows kmeans ->
  forall H P, exists hp, clusterLoop kmeans delaunay floorPow data cl ids H P = Returned hp.
Proof.
  intros Hk. induction ids as [|c ids IH]; intros H P; simpl; [eexists; reflexivity|].
  destruct (processCluster_returns kmeans delaunay floorPow data cl c Hk) as [[[ce ed]|] Hp];
    rewrite Hp; simpl; apply IH.
Qed.

Lemma boundaries_returns
    (kmeans : list point -> Z -> outcome (option KMeansResult))
    (delaunay : list point -> outcome (list nat)) (floorPow : nat -> Z)
    (data : list DataRow) (cl : list Z) :
  neverThrows kmeans ->
  exists out, boundaries kmeans delaunay floorPow data cl = Returned out.
Proof.
  intros Hk. unfold boundaries.
  destruct (clusterLoop_returns kmeans delaunay floorPow data cl (uniqueClusters cl) Hk [] [])
    as [[H' P'] Hloop].
  rewrite Hloop. simpl.
  apply clusterLoop_collects in Hloop. destruct Hloop as (HP & -> & -> & _).
  simpl. rewrite assemble_aligned by (rewrite !length_map; reflexivity).
  eexists. reflexivity.
Qed.

(** [analyze] and the computation of the traces fail only where the
    clustering library fails: when no clustering run throws, both return;
    neither the triangulation, nor the loop over the clusters, nor the
    assembly adds a failure of its own. *)
Theorem analyze_fails_only_with_kmeans
    (kmeans : list point -> Z -> outcome (option KMeansResult))
    (delaunay : list point -> outcome (list nat)) (floorPow : nat -> Z)
    (data : list DataRow) (n : Z) :
  neverThrows kmeans ->
  (exists out, analyze kmeans delaunay floorPow data n = Returned out)
  /\ (exists view, genClusters kmeans delaunay floorPow data n = Returned view).
Proof.
  intros Hk.
  assert (Han : exists out, analyze kmeans delaunay floorPow data n = Returned out).
  { unfold analyze, primaryClustering.
    destruct (primaryArgs data n) as [[pts k]|]; simpl; [|eexists; reflexivity].
    destruct (Hk pts k) as [[r|] Hr]; rewrite Hr; simpl; [|eexists; reflexivity].
    destruct (clusters r) as [cl|]; [|eexists; reflexivity].
    apply boundaries_returns. exact Hk. }
  split; [exact Han|].
  unfold genClusters. destruct (Hk (features data) n) as [r Hr]. rewrite Hr. simpl.
  destruct Han as [out Hout]. rewrite Hout. simpl. eexists. reflexivity.
Qed.

Lemma kmeansOnce_neverThrows (init : list nat) : neverThrows (kmeansOnce init).
Proof. intros pts k. eexists. reflexivity. Qed.

(** The two districts. *)
Lemma analyze_fails_only_with_kmeans_witness :
  (exists out,
     analyze (kmeansOnce [1; 0; 2; 3]) quadDelaunay exactFloorPowQuarter twoDistricts 2
     = Returned out)
  /\ (exists view,
        genClusters (kmeansOnce [1; 0; 2; 3]) quadDelaunay exactFloorPowQuarter twoDistricts 2
        = Returned view).
Proof.
  apply (analyze_fails_only_with_kmeans
           (kmeansOnce [1; 0; 2; 3]) quadDelaunay exactFloorPowQuarter twoDistricts 2).
  intros pts k. eexists. reflexivity.
Defined.

(** *** The arguments of the clustering runs *)

(** Every clustering run [analyze] starts is within the contract of the
    library: the primary run gets the valid points, at least one of them, and
    a count between 1 and their number; a secondary run gets at least four
    points and, [Math.floor(Math.pow(m, 0.25))] being the floor of the fourth
    root, a count between 1 and their number. *)
Theorem clustering_runs_within_contract
    (floorPow : nat -> Z) (data : list DataRow) (nCluster : Z) (cl : list Z) (c : Z) :
  (forall m, isFloorRoot4 m (floorPow m)) ->
  (forall pts k,
     primaryArgs data nCluster = Some (pts, k) ->
     pts = features data /\ 1 <= length pts /\ (1 <= k <= Z.of_nat (length pts))%Z)
  /\ (forall pts k,
        secondaryArgs floorPow data cl c = Some (pts, k) ->
        4 <= length pts /\ (1 <= k <= Z.of_nat (length pts))%Z).
Proof.
  intros Hroot. split.
  - intros pts k H. apply primaryArgs_Some in H. destruct H as (-> & -> & H1 & H2).
    repeat split; try assumption; lia.
  - intros pts k H. apply secondaryArgs_Some in H. destruct H as (_ & -> & H4).
    split; [exact H4|]. rewrite subClusterCount_max.
    destruct (Hroot (length pts)) as (H0 & Hlo & _).
    split; [lia|].
    assert (floorPow (length pts) <= Z.of_nat (length pts))%Z.
    { destruct (Z.eq_dec (floorPow (length pts)) 0) as [->|Hne]; [lia|].
      assert (floorPow (length pts) ^ 1 <= floorPow (length pts) ^ 4)%Z
        by (apply Z.pow_le_mono_r; lia).
      rewrite Z.pow_1_r in *. lia. }
    lia.
Qed.

(** The exact fourth root, the misaligned records. *)
Lemma clustering_runs_within_contract_witness :
  (forall pts k,
     primaryArgs misaligned 9 = Some (pts, k) ->
     pts = features misaligned /\ 1 <= length pts /\ (1 <= k <= Z.of_nat (length pts))%Z)
  /\ (forall pts k,
        secondaryArgs exactFloorPowQuarter misaligned [0; 0; 0; 0]%Z 0 = Some (pts, k) ->
        4 <= length pts /\ (1 <= k <= Z.of_nat (length pts))%Z).
Proof.
  apply (clustering_runs_within_contract exactFloorPowQuarter misaligned 9 [0; 0; 0; 0]%Z 0).
  apply exactFloorPowQuarter_spec.
Defined.

(** *** The marker traces of genClustersHTML *)

Lemma flat_map_map_rows {B : Type} (f : DataRow -> B) (g : Z -> list DataRow) (ids : list Z) :
  flat_map (fun c => map f (g c)) ids = map f (flat_map g ids).
Proof.
  induction ids as [|c ids IH]; simpl; [reflexivity|]. rewrite map_app, IH. reflexivity.
Qed.

(** The marker traces: one trace for each distinct id of the primary
    assignment, in the order of first appearance; in each trace as many
    latitudes as longitudes; and over all traces the coordinates of the
    records at the positions the assignment covers, each record once.  With
    no assignment there is no trace. *)
Theorem marker_traces_cover_assignment
    (kmeans : list point -> Z -> outcome (option KMeansResult))
    (delaunay : list point -> outcome (list nat)) (floorPow : nat -> Z)
    (data : list DataRow) (n : Z) (view : ClustersView) :
  genClusters kmeans delaunay floorPow data n = Returned view ->
  (primaryAssignment view = None -> primaryTraces view = [])
  /\ Forall (fun t => length (markerLat t) = length (markerLon t)) (primaryTraces view)
  /\ (forall cl,
        primaryAssignment view = Some cl ->
        map clusterOf (primaryTraces view) = uniqueClusters cl
        /\ Permutation (flat_map markerLat (primaryTraces view))
             (map (fun row => Number (Latitude row)) (firstn (length cl) data))
        /\ Permutation (flat_map markerLon (primaryTraces view))
             (map (fun row => Number (Longitude row)) (firstn (length cl) data))).
Proof.
  unfold genClusters. intros H.
  destruct (kmeans (features data) n) as [primaryResult|e]; simpl in H; [|discriminate].
  destruct (analyze kmeans delaunay floorPow data n) as [sec|e]; simpl in H; [|discriminate].
  inversion H; subst view; clear H. cbn [primaryAssignment primaryTraces].
  set (assignment := match primaryResult with Some r => clusters r | None => None end).
  destruct assignment as [cl|].
  - split; [discriminate|]. split.
    + apply Forall_forall. intros t Ht. apply in_map_iff in Ht.
      destruct Ht as (c & <- & _). unfold primaryTrace. simpl. rewrite !length_map.
      reflexivity.
    + intros cl' Hcl. inversion Hcl; subst cl'. split; [|split].
      * rewrite map_map. unfold primaryTrace. simpl. apply map_id.
      * rewrite flat_map_concat_map, map_map, <- flat_map_concat_map.
        unfold primaryTrace. cbn [markerLat].
        rewrite flat_map_map_rows. apply Permutation_map. apply clusterRows_Permutation.
      * rewrite flat_map_concat_map, map_map, <- flat_map_concat_map.
        unfold primaryTrace. cbn [markerLon].
        rewrite flat_map_map_rows. apply Permutation_map. apply clusterRows_Permutation.
  - split; [reflexivity|]. split; [constructor|]. intros cl Hcl. discriminate.
Qed.

(** The misaligned records with two clusters requested. *)
Lemma marker_traces_cover_assignment_witness :
  (primaryAssignment MoreScenario.misalignedView = None ->
   primaryTraces MoreScenario.misalignedView = [])
  /\ Forall (fun t => length (markerLat t) = length (markerLon t))
       (primaryTraces MoreScenario.misalignedView)
  /\ (forall cl,
        primaryAssignment MoreScenario.misalignedView = Some cl ->
        map clusterOf (primaryTraces MoreScenario.misalignedView) = uniqueClusters cl
        /\ Permutation (flat_map markerLat (primaryTraces MoreScenario.misalignedView))
             (map (fun row => Number (Latitude row)) (firstn (length cl) misaligned))
        /\ Permutation (flat_map markerLon (primaryTraces MoreScenario.misalignedView))
             (map (fun row => Number (Longitude row)) (firstn (length cl) misaligned))).
Proof.
  apply (marker_traces_cover_assignment
           (kmeansOnce [0; 1]) quadDelaunay exactFloorPowQuarter misaligned 2).
  vm_compute. reflexivity.
Defined.

End AnalyzeFacts.

(** ** components/utils.ts *)

Module FloatFacts.

Import SpecFloat FloatOps.

Lemma SFcompare_Lt_trans (a b c : spec_float) :
  SFcompare a b = Some Lt -> SFcompare b c = Some Lt -> SFcompare a c = Some Lt.
Proof.
  destruct a as [sa|sa| |sa ma ea], b as [sb|sb| |sb mb eb], c as [sc|sc| |sc mc ec];
    simpl; try discriminate;
    try (destruct sa); try (destruct sb); try (destruct sc);
    simpl; try discriminate; try reflexivity;
    intros H1 H2; injection H1 as H1; injection H2 as H2; f_equal;
    change (Pos.compare_cont Eq) with Pos.compare in *;
    destruct (Z.compare_spec ea eb), (Z.compare_spec eb ec), (Z.compare_spec ea ec);
    subst; try discriminate; try lia; try reflexivity;
    destruct (Pos.compare_spec ma mb), (Pos.compare_spec mb mc), (Pos.compare_spec ma mc);
    subst; simpl in *; try discriminate; try lia; try reflexivity.
Qed.

Lemma SFcompare_not_Lt_refl (a : spec_float) : SFcompare a a <> Some Lt.
Proof.
  destruct a as [s|s| |s m e]; simpl; try discriminate; destruct s; try discriminate;
    rewrite Z.compare_refl, Pos.compare_cont_refl; discriminate.
Qed.

Lemma Prim2SF_nan (x : float) : is_nan x = true -> Prim2SF x = S754_nan.
Proof. intros H. unfold Prim2SF. rewrite H. reflexivity. Qed.

(** A comparison with NaN is false. *)
Lemma ltb_nan_l (x y : float) : is_nan x = true -> (x <? y)%float = false.
Proof.
  intros H. rewrite FloatAxioms.ltb_spec, (Prim2SF_nan x H). reflexivity.
Qed.

Lemma ltb_nan_r (x y : float) : is_nan y = true -> (x <? y)%float = false.
Proof.
  intros H. rewrite FloatAxioms.ltb_spec, (Prim2SF_nan y H).
  unfold SFltb. destruct (Prim2SF x); reflexivity.
Qed.

Lemma ltb_trans (x y z : float) :
  (x <? y)%float = true -> (y <? z)%float = true -> (x <? z)%float = true.
Proof.
  rewrite !FloatAxioms.ltb_spec. unfold SFltb.
  destruct (SFcompare (Prim2SF x) (Prim2SF y)) as [[]|] eqn:E1; try discriminate.
  destruct (SFcompare (Prim2SF y) (Prim2SF z)) as [[]|] eqn:E2; try discriminate.
  rewrite (SFcompare_Lt_trans _ _ _ E1 E2). reflexivity.
Qed.

Lemma ltb_irrefl (x : float) : (x <? x)%float = false.
Proof.
  rewrite FloatAxioms.ltb_spec. unfold SFltb.
  destruct (SFcompare (Prim2SF x) (Prim2SF x)) as [[]|] eqn:E; try reflexivity.
  exfalso. exact (SFcompare_not_Lt_refl _ E).
Qed.

Lemma ltb_asym (x y : float) : (x <? y)%float = true -> (y <? x)%float = false.
Proof.
  intros H. destruct (y <? x)%float eqn:E; [|reflexivity].
  pose proof (ltb_trans _ _ _ H E) as Hxx. rewrite ltb_irrefl in Hxx. discriminate.
Qed.

End FloatFacts.

Module UtilsFacts.

Import FloatFacts.

Section Reduce.

(** The two reductions are one loop, with the comparison turned round. *)
Variable less : float -> float -> bool.
Hypothesis less_trans : forall x y z, less x y = true -> less y z = true -> less x z = true.
Hypothesis less_irrefl : forall x, less x x = false.
Hypothesis less_nan : forall x y, is_nan x = true -> less x y = false.

Lemma reduce_choice (arr : list float) :
  forall init, fold_left (pick less) arr init = init \/ In (fold_left (pick less) arr init) arr.
Proof.
  induction arr as [|c arr IH]; intros init; simpl; [left; reflexivity|].
  destruct (IH (pick less init c)) as [H|H]; [|right; right; exact H].
  rewrite H. unfold pick. destruct (less c init); [right; left|left]; reflexivity.
Qed.

Lemma reduce_below_init (arr : list float) :
  forall init,
    fold_left (pick less) arr init = init \/ less (fold_left (pick less) arr init) init = true.
Proof.
  induction arr as [|c arr IH]; intros init; simpl; [left; reflexivity|].
  unfold pick at 2 4. destruct (less c init) eqn:E.
  - destruct (IH c) as [H|H]; right.
    + rewrite H. exact E.
    + eapply less_trans; eassumption.
  - apply IH.
Qed.

Lemma reduce_bound (arr : list float) :
  forall init x, In x arr -> less x (fold_left (pick less) arr init) = false.
Proof.
  induction arr as [|c arr IH]; intros init x Hin; simpl in *; [contradiction|].
  destruct Hin as [->|Hin]; [|apply IH; exact Hin].
  unfold pick at 2. destruct (less x init) eqn:E.
  - destruct (reduce_below_init arr x) as [H|H].
    + rewrite H. apply less_irrefl.
    + destruct (less x (fold_left (pick less) arr x)) eqn:E2; [|reflexivity].
      pose proof (less_trans _ _ _ E2 H) as Hxx. rewrite less_irrefl in Hxx. discriminate.
  - destruct (reduce_below_init arr init) as [H|H].
    + rewrite H. exact E.
    + destruct (less x (fold_left (pick less) arr init)) eqn:E2; [|reflexivity].
      pose proof (less_trans _ _ _ E2 H) as Hxi. congruence.
Qed.

Lemma reduce_skips_nan (arr : list float) :
  forall init,
    fold_left (pick less) arr init
    = fold_left (pick less) (filter (fun x => negb (is_nan x)) arr) init.
Proof.
  induction arr as [|c arr IH]; intros init; simpl; [reflexivity|].
  destruct (is_nan c) eqn:E; simpl.
  - unfold pick at 2. rewrite (less_nan c init E). apply IH.
  - apply IH.
Qed.

End Reduce.

Lemma getMin_reduce (arr : list float) :
  getMin arr = fold_left (pick (fun x y => (x <? y)%float)) arr infinity.
Proof. reflexivity. Qed.

Lemma getMin_skips_nan (arr : list float) :
  getMin arr = getMin (filter (fun x => negb (is_nan x)) arr).
Proof.
  rewrite !getMin_reduce. apply (reduce_skips_nan (fun x y => (x <? y)%float) ltb_nan_l).
Qed.

Lemma getMax_reduce (arr : list float) :
  getMax arr = fold_left (pick (fun x y => (y <? x)%float)) arr neg_infinity.
Proof. reflexivity. Qed.

Lemma getMax_skips_nan (arr : list float) :
  getMax arr = getMax (filter (fun x => negb (is_nan x)) arr).
Proof.
  rewrite !getMax_reduce. apply (reduce_skips_nan (fun x y => (y <? x)%float)).
  intros x y Hx. apply ltb_nan_r. exact Hx.
Qed.

(** [getMin]: the result is [Infinity] (as on the empty array) or an element
    of the array; it is never NaN; no element of the array is below it; and
    NaN elements are passed over, the result being that of the array without
    them. *)
Theorem getMin_minimum (arr : list float) :
  (getMin arr = infinity \/ In (getMin arr) arr)
  /\ getMin [] = infinity
  /\ is_nan (getMin arr) = false
  /\ (forall x, In x arr -> (x <? getMin arr)%float = false)
  /\ getMin arr = getMin (filter (fun x => negb (is_nan x)) arr).
Proof.
  rewrite !getMin_reduce. split; [apply reduce_choice|]. split; [reflexivity|].
  split; [|split].
  - destruct (reduce_below_init (fun x y => (x <? y)%float) ltb_trans arr infinity) as [H|H].
    + rewrite H. reflexivity.
    + destruct (is_nan _) eqn:E; [|reflexivity].
      rewrite (ltb_nan_l _ infinity E) in H. discriminate.
  - intros x Hx. apply (reduce_bound (fun x y => (x <? y)%float) ltb_trans ltb_irrefl).
    exact Hx.
  - apply (reduce_skips_nan (fun x y => (x <? y)%float) ltb_nan_l).
Qed.

(** [getMax]: the result is [-Infinity] (as on the empty array) or an
    element of the array; it is never NaN; no element of the array is above
    it; and NaN elements are passed over. *)
Theorem getMax_maximum (arr : list float) :
  (getMax arr = neg_infinity \/ In (getMax arr) arr)
  /\ getMax [] = neg_infinity
  /\ is_nan (getMax arr) = false
  /\ (forall x, In x arr -> (getMax arr <? x)%float = false)
  /\ getMax arr = getMax (filter (fun x => negb (is_nan x)) arr).
Proof.
  assert (Htrans : forall x y z : float,
            (y <? x)%float = true -> (z <? y)%float = true -> (z <? x)%float = true).
  { intros x y z H1 H2. eapply ltb_trans; eassumption. }
  rewrite !getMax_reduce. split; [apply reduce_choice|]. split; [reflexivity|].
  split; [|split].
  - destruct (reduce_below_init (fun x y => (y <? x)%float) Htrans arr neg_infinity) as [H|H].
    + rewrite H. reflexivity.
    + destruct (is_nan _) eqn:E; [|reflexivity].
      rewrite (ltb_nan_r neg_infinity _ E) in H. discriminate.
  - intros x Hx.
    apply (reduce_bound (fun x y => (y <? x)%float) Htrans ltb_irrefl). exact Hx.
  - apply (reduce_skips_nan (fun x y => (y <? x)%float)).
    intros x y Hx. apply ltb_nan_r. exact Hx.
Qed.

End UtilsFacts.

(** ** components/combinedVisualization.tsx: the coordinates and the centres *)

Module VisualizationFacts.

Import Scenario UtilsFacts.

(** The heat map plots exactly the points the clustering keeps: its [lat] and
    [lon] arrays, taken position by position, are the filtered points of
    [analyze]; they have the same length and hold no NaN; and with no valid
    record the heat map is centred at (0, 0). *)
Theorem heat_map_plots_the_features (data : list DataRow) :
  combine (heatLat data) (heatLon data) = features data
  /\ length (heatLat data) = length (heatLon data)
  /\ Forall (fun x => isNaN x = false) (heatLat data)
  /\ Forall (fun x => isNaN x = false) (heatLon data)
  /\ (features data = [] -> heatCentreLat data = 0%float /\ heatCentreLon data = 0%float).
Proof.
  unfold heatCentreLat, heatCentreLon, heatLat, heatLon, features.
  split; [|split; [|split; [|split]]].
  - induction (filter validRow data) as [|row rows IH]; simpl; [reflexivity|].
    rewrite IH. reflexivity.
  - rewrite !length_map. reflexivity.
  - apply Forall_forall. intros x Hx. apply in_map_iff in Hx. destruct Hx as (row & <- & Hrow).
    apply filter_In in Hrow. destruct Hrow as [_ Hv]. unfold validRow in Hv.
    rewrite !andb_true_iff, !negb_true_iff in Hv. tauto.
  - apply Forall_forall. intros x Hx. apply in_map_iff in Hx. destruct Hx as (row & <- & Hrow).
    apply filter_In in Hrow. destruct Hrow as [_ Hv]. unfold validRow in Hv.
    rewrite !andb_true_iff, !negb_true_iff in Hv. tauto.
  - intros H. apply map_eq_nil in H. rewrite H. split; reflexivity.
Qed.

Lemma filter_none (xs : list float) :
  (forall x, In x xs -> is_nan x = true) -> filter (fun x => negb (is_nan x)) xs = [].
Proof.
  induction xs as [|x xs IH]; intros H; simpl; [reflexivity|].
  rewrite (H x (or_introl eq_refl)). simpl. apply IH. intros y Hy. apply H. right. exact Hy.
Qed.

Lemma centre_all_nan (xs : list float) :
  xs <> [] -> (forall x, In x xs -> is_nan x = true) -> centre xs = nan.
Proof.
  intros Hne Hall. unfold centre. destruct xs as [|x xs]; [contradiction|].
  simpl Nat.eqb. cbv iota.
  rewrite getMin_skips_nan, getMax_skips_nan, (filter_none _ Hall). reflexivity.
Qed.

(** The centre of the clusters map is taken over all the records: with no
    record it is (0, 0), and with records none of which has a latitude that
    is a number (or a longitude), the centre latitude (longitude) is NaN, as
    [getMin] and [getMax] then answer [Infinity] and [-Infinity]. *)
Theorem clusters_centre_without_numbers (data : list DataRow) :
  (data = [] -> clustersCentreLat data = 0%float /\ clustersCentreLon data = 0%float)
  /\ (data <> [] ->
      (forall row, In row data -> isNaN (Number (Latitude row)) = true) ->
      clustersCentreLat data = nan)
  /\ (data <> [] ->
      (forall row, In row data -> isNaN (Number (Longitude row)) = true) ->
      clustersCentreLon data = nan).
Proof.
  split; [intros ->; split; reflexivity|].
  split; intros Hne Hall; apply centre_all_nan.
  - unfold allLats. intros H. apply map_eq_nil in H. contradiction.
  - intros x Hx. apply in_map_iff in Hx. destruct Hx as (row & <- & Hrow). apply Hall. exact Hrow.
  - unfold allLons. intros H. apply map_eq_nil in H. contradiction.
  - intros x Hx. apply in_map_iff in Hx. destruct Hx as (row & <- & Hrow). apply Hall. exact Hrow.
Qed.

(** One record without coordinates. *)
Lemma clusters_centre_without_numbers_witness :
  clustersCentreLat [missingRow] = nan /\ clustersCentreLon [missingRow] = nan.
Proof.
  split.
  - apply (proj1 (proj2 (clusters_centre_without_numbers [missingRow]))).
    + discriminate.
    + intros row [<-|[]]. reflexivity.
  - apply (proj2 (proj2 (clusters_centre_without_numbers [missingRow]))).
    + discriminate.
    + intros row [<-|[]]. reflexivity.
Defined.

End VisualizationFacts.

(** ** page.tsx: the time window *)

Module PageFacts.

(** The time window of the filter: a record whose time is not a valid date is
    never in the window; with equal start and end every valid time is in the
    window; with different start and end, swapping them gives the
    complementary window; and when the end is before the start the window
    wraps around midnight. *)
Theorem time_window_wraps (t s e : Z) :
  (forall startTimeObj endTimeObj, inTimeWindow None startTimeObj endTimeObj = false)
  /\ inTimeWindow (Some t) (Some s) (Some s) = true
  /\ (s <> e ->
      inTimeWindow (Some t) (Some s) (Some e) = negb (inTimeWindow (Some t) (Some e) (Some s)))
  /\ ((s < e)%Z ->
      inTimeWindow (Some t) (Some s) (Some e) = ((s <=? t)%Z && (t <? e)%Z))
  /\ ((e < s)%Z ->
      inTimeWindow (Some t) (Some s) (Some e) = ((s <=? t)%Z || (t <? e)%Z)).
Proof.
  unfold inTimeWindow, dateLt, dateGe. repeat split.
  - intros [x|] [y|]; simpl; try reflexivity. destruct (x <? y)%Z; reflexivity.
  - rewrite Z.ltb_irrefl.
    destruct (Z.leb_spec s t), (Z.ltb_spec t s); simpl; try reflexivity; lia.
  - intros Hne.
    destruct (Z.ltb_spec s e), (Z.ltb_spec e s), (Z.leb_spec s t), (Z.ltb_spec t e),
      (Z.leb_spec e t), (Z.ltb_spec t s); simpl; try reflexivity; lia.
  - intros Hlt. apply Z.ltb_lt in Hlt. rewrite Hlt. reflexivity.
  - intros Hlt. destruct (Z.ltb_spec s e); [lia|]. reflexivity.
Qed.

End PageFacts.

(** ** page.tsx: the filter of [fetchData] *)

Module IngestFacts.

Import Scenario PipelineFacts ClusterFacts.

Lemma kept_valid (row : Ingest.ParsedRow) :
  Ingest.kept row = true -> validRow (Ingest.toDataRow row) = true.
Proof.
  unfold Ingest.kept, validRow, Ingest.toDataRow. simpl.
  rewrite !andb_true_iff. intros ((((_ & Hlat) & Hlon) & _) & _).
  unfold Ingest.truthyNumber in *.
  destruct (Ingest.latitude row) as [lat|]; [|discriminate].
  destruct (Ingest.longitude row) as [lon|]; [|discriminate].
  apply andb_true_iff in Hlat, Hlon. simpl. unfold isNaN. intuition.
Qed.

Lemma processed_all_valid (rows : list Ingest.ParsedRow) :
  forallb validRow (Ingest.processed rows) = true.
Proof.
  unfold Ingest.processed. apply forallb_forall. intros r Hr.
  apply in_map_iff in Hr. destruct Hr as (row & <- & Hrow).
  apply filter_In in Hrow. apply kept_valid. tauto.
Qed.

(** Every record the page keeps passes the point filter of [analyze]; so for
    any selection of the kept records (by city, by time) the filtered points
    are all the records and a cluster is handed its own points.  None of the
    kept records has a coordinate equal to 0: a row on the equator or on the
    prime meridian is dropped by the page, its coordinate being falsy. *)
Theorem page_keeps_valid_nonzero_records (rows : list Ingest.ParsedRow) :
  forallb validRow (Ingest.processed rows) = true
  /\ features (Ingest.processed rows) = map latLon (Ingest.processed rows)
  /\ (forall data cl c,
        incl data (Ingest.processed rows) ->
        features data = map latLon data
        /\ clusterPoints data cl c = assignedPoints data cl c)
  /\ (forall p, In p (features (Ingest.processed rows)) ->
        (fst p =? 0)%float = false /\ (snd p =? 0)%float = false)
  /\ (forall row,
        Ingest.latitude row = Some 0%float \/ Ingest.longitude row = Some 0%float ->
        Ingest.kept row = false).
Proof.
  pose proof (processed_all_valid rows) as Hall.
  split; [exact Hall|]. split; [|split; [|split]].
  - unfold features. rewrite (filter_all _ _ Hall). reflexivity.
  - intros data cl c Hincl.
    assert (Hdata : forallb validRow data = true).
    { apply forallb_forall. intros r Hr. rewrite forallb_forall in Hall. apply Hall.
      apply Hincl. exact Hr. }
    split; [unfold features; rewrite (filter_all _ _ Hdata); reflexivity|].
    apply clusterPoints_all_valid. exact Hdata.
  - intros p Hp. unfold features in Hp. rewrite (filter_all _ _ Hall) in Hp.
    unfold Ingest.processed in Hp. rewrite map_map in Hp. apply in_map_iff in Hp.
    destruct Hp as (row & <- & Hrow). apply filter_In in Hrow. destruct Hrow as [_ Hk].
    unfold Ingest.kept in Hk. rewrite !andb_true_iff in Hk.
    destruct Hk as ((((_ & Hlat) & Hlon) & _) & _).
    unfold Ingest.truthyNumber, latLon, Ingest.toDataRow in *. simpl.
    destruct (Ingest.latitude row) as [lat|]; [|discriminate].
    destruct (Ingest.longitude row) as [lon|]; [|discriminate].
    apply andb_true_iff in Hlat, Hlon. simpl. rewrite !negb_true_iff in Hlat, Hlon. tauto.
  - intros row [H|H]; unfold Ingest.kept, Ingest.truthyNumber; rewrite H; simpl.
    + rewrite andb_false_r. reflexivity.
    + rewrite !andb_false_r. reflexivity.
Qed.

(** A theft on the equator. *)
Lemma page_keeps_valid_nonzero_records_witness :
  Ingest.kept MoreScenario.equatorRow = false.
Proof.
  apply (proj2 (proj2 (proj2 (proj2
           (page_keeps_valid_nonzero_records [MoreScenario.equatorRow]))))).
  left. reflexivity.
Defined.

End IngestFacts.

(** ** components/clustering.ts: the points of a cluster when every record is
    valid *)

Module AlignedFacts.

Import Scenario PipelineFacts ClusterFacts.

(** When every record passes the filter, the points handed to the secondary
    run of cluster [c] are exactly the filtered points the primary
    assignment labels [c], with the coordinates swapped to longitude
    first. *)
Theorem secondary_points_aligned_when_all_valid
    (data : list DataRow) (cl : list Z) (c : Z) :
  forallb validRow data = true ->
  features data = map latLon data
  /\ forall p,
       In p (clusterPoints data cl c) <->
       exists idx,
         nth_error (features data) idx = Some (snd p, fst p)
         /\ nth_error cl idx = Some c.
Proof.
  intros Hall.
  assert (Hf : features data = map latLon data).
  { unfold features. rewrite (filter_all _ _ Hall). reflexivity. }
  split; [exact Hf|]. intros p. rewrite Hf. unfold clusterPoints. rewrite in_map_iff. split.
  - intros (row & <- & Hrow). apply clusterRows_In in Hrow.
    destruct Hrow as (idx & Hd & Hc). exists idx. split; [|exact Hc].
    rewrite nth_error_map, Hd. reflexivity.
  - intros (idx & Hd & Hc). rewrite nth_error_map in Hd.
    destruct (nth_error data idx) as [row|] eqn:E; [|discriminate].
    exists row. split.
    + simpl in Hd. inversion Hd as [[H1 H2]]. unfold lonLat. destruct p. simpl in *.
      congruence.
    + apply clusterRows_In. exists idx. tauto.
Qed.

(** The district, all in cluster 0. *)
Lemma secondary_points_aligned_when_all_valid_witness :
  features district = map latLon district
  /\ forall p,
       In p (clusterPoints district (repeat 0%Z 256) 0) <->
       exists idx,
         nth_error (features district) idx = Some (snd p, fst p)
         /\ nth_error (repeat 0%Z 256) idx = Some 0%Z.
Proof.
  apply (secondary_points_aligned_when_all_valid district (repeat 0%Z 256) 0).
  vm_compute. reflexivity.
Defined.

End AlignedFacts.

(** ** Two runs of the pipeline *)

Module RunFacts.

Import Scenario MoreScenario PipelineFacts AnalyzeFacts.










End RunFacts.

